(** * The CloudWatch output plugin: datum building, batching and retry

    A shallow embedding of [plugins/outputs/cloudwatch/cloudwatch.go]:
    [GetUniqueRollupList], [BuildDimensions], [ProcessRollup],
    [BuildMetricDatum], the [MetricDatumBatch] accumulator driven by
    [pushMetricDatum], and [backoffSleep] / [WriteToCloudWatch].

    Conventions.
    - A Go [map] is a [gmap]; the order in which a [range] statement visits a
      map is not specified by Go, so every loop over a map takes the visiting
      order as an explicit argument, constrained to be a permutation of the
      map's entries.
    - A Go pointer is an [option] ([None] is [nil]).
    - Go's [int] is 64 bits wide here; arithmetic on it is wrapped by [int_wrap].
    - A [float64] is a [spec_float] of precision 53. *)

From Stdlib Require Import ZArith Ascii Floats.SpecFloat.
From stdpp Require Import gmap strings list sorting.

Open Scope string_scope.
Open Scope list_scope.
Open Scope Z_scope.

(** ** Machine integers and floats *)

Definition int_wrap (z : Z) : Z := (z + 2 ^ 63) `mod` 2 ^ 64 - 2 ^ 63.

Definition float64 : Type := spec_float.

(** [float64(t)] for an integer [t]: rounding to nearest, ties to even. *)
Definition float64_of_Z (z : Z) : float64 := binary_normalize 53 1024 z 0 false.

#[global] Instance float64_eq_dec : EqDecision float64.
Proof. solve_decision. Defined.

(** ** Slices of strings

    [reflect.DeepEqual] tells a nil slice from an empty one, so a rollup rule
    (a [[]string]) keeps that distinction. *)

Inductive StringSlice : Type :=
  | NilSlice
  | Slice (elems : list string).

#[global] Instance StringSlice_eq_dec : EqDecision StringSlice.
Proof. solve_decision. Defined.

Definition elems_of (s : StringSlice) : list string :=
  match s with
  | NilSlice => []
  | Slice l => l
  end.

(** [reflect.DeepEqual] on two [[]string]. *)
Definition DeepEqual_strings (a b : StringSlice) : bool := bool_decide (a = b).

(** ** GetUniqueRollupList *)

(** The inner [for _, u := range uniqueLists]: the range expression is
    evaluated once ([snapshot]), while [len(uniqueLists)] and the [append]
    act on the variable. *)
Fixpoint unique_scan (inputList : StringSlice) (snapshot : list StringSlice)
    (count : nat) (uniqueLists : list StringSlice) : list StringSlice :=
  match snapshot with
  | [] => uniqueLists
  | u :: rest =>
      if DeepEqual_strings inputList u then uniqueLists
      else
        let count := S count in
        let uniqueLists :=
          if decide (count = length uniqueLists)
          then uniqueLists ++ [inputList] else uniqueLists in
        unique_scan inputList rest count uniqueLists
  end.

Definition GetUniqueRollupList (inputLists : list StringSlice) : list StringSlice :=
  let uniqueLists :=
    match inputLists with
    | [] => []
    | first :: _ => [first]
    end in
  fold_left
    (fun uniqueLists inputList => unique_scan inputList uniqueLists 0 uniqueLists)
    inputLists uniqueLists.

(** The first occurrence of every element, in order of first occurrence. *)
Fixpoint first_seen {A} `{EqDecision A} (l : list A) : list A :=
  match l with
  | [] => []
  | x :: l' => x :: filter (fun y => y ≠ x) (first_seen l')
  end.

(** ** Dimensions *)

Record Dimension : Type := mkDimension {
  Dimension_Name : string;
  Dimension_Value : string
}.

#[global] Instance Dimension_eq_dec : EqDecision Dimension.
Proof. solve_decision. Defined.

(** A [[]*cloudwatch.Dimension] all of whose pointers are non-nil, which is
    what [BuildDimensions] and [ProcessRollup] hand on. *)
Abbreviation DimensionSet := (list Dimension).

Definition MaxDimensions : nat := 10.

(** [sort.Strings]: ascending in the byte-wise order of Go's [<] on strings. *)
Definition sort_Strings (keys : list string) : list string :=
  merge_sort String.le keys.

(** The second loop of [BuildDimensions], over the sorted keys. *)
Fixpoint BuildDimensions_loop (mTags : gmap string string) (keys : list string)
    (dimensions : DimensionSet) : DimensionSet :=
  match keys with
  | [] => dimensions
  | k :: rest =>
      if decide (MaxDimensions ≤ length dimensions)%nat then dimensions
      else
        let value := default "" (mTags !! k) in
        if decide (value = "") then BuildDimensions_loop mTags rest dimensions
        else
          BuildDimensions_loop mTags rest
            (dimensions ++ [mkDimension k (default "" (mTags !! k))])
  end.

(** [visit] is the order in which [for k := range mTags] yields the keys. *)
Definition BuildDimensions_range (mTags : gmap string string) (visit : list string)
    : DimensionSet :=
  let dimensions : DimensionSet := [] in
  let dimensions :=
    match mTags !! "host" with
    | Some host =>
        if decide (host ≠ "")
        then dimensions ++ [mkDimension "host" host]
        else dimensions
    | None => dimensions
    end in
  let keys :=
    fold_left (fun keys k => if decide (k ≠ "host") then keys ++ [k] else keys)
      visit [] in
  let keys := sort_Strings keys in
  BuildDimensions_loop mTags keys dimensions.

(** A visiting order that [range m] may produce. *)
Definition range_keys {V} (m : gmap string V) (visit : list string) : Prop :=
  visit ≡ₚ (map_to_list m).*1.

Definition range_entries {V} (m : gmap string V) (visit : list (string * V)) : Prop :=
  visit ≡ₚ map_to_list m.

#[global] Instance range_keys_dec {V} (m : gmap string V) visit :
  Decision (range_keys m visit).
Proof. unfold range_keys. apply _. Defined.

#[global] Instance range_entries_dec {V} `{EqDecision V} (m : gmap string V) visit :
  Decision (range_entries m visit).
Proof. unfold range_entries. apply _. Defined.

Definition BuildDimensions (mTags : gmap string string) : DimensionSet :=
  BuildDimensions_range mTags (map_to_list mTags).*1.

(** ** ProcessRollup *)

Definition rawDimensionMap_of (rawDimension : DimensionSet) : gmap string string :=
  fold_left (fun m v => <[Dimension_Name v := Dimension_Value v]> m) rawDimension ∅.

(** The loop over one rule's keys: [extraDimensions] is preallocated with nil
    slots and written at index [i]; a missing key breaks out. *)
Fixpoint rollup_fill (rawDimensionMap : gmap string string) (targetDimensions : list string)
    (i : nat) (extraDimensions : list (option Dimension)) : nat * list (option Dimension) :=
  match targetDimensions with
  | [] => (i, extraDimensions)
  | targetDimensionKey :: rest =>
      match rawDimensionMap !! targetDimensionKey with
      | None => (i, extraDimensions)
      | Some val =>
          rollup_fill rawDimensionMap rest (S i)
            (<[i := Some (mkDimension targetDimensionKey val)]> extraDimensions)
      end
  end.

(** [reflect.DeepEqual(rawDimension, extraDimensions)]: the pointers of
    [rawDimension] are non-nil, the slots of [extraDimensions] may be nil. *)
Definition DeepEqual_dimensions (rawDimension : DimensionSet)
    (extraDimensions : list (option Dimension)) : bool :=
  bool_decide (Some <$> rawDimension = extraDimensions).

(** A rule's result is appended only when [i == len(targetDimensions)], that
    is when every slot has been written ([rollup_fill_complete] below), so
    [omap id] drops nothing. *)
Definition ProcessRollup (RollupDimensions : list StringSlice) (rawDimension : DimensionSet)
    : list DimensionSet :=
  let rawDimensionMap := rawDimensionMap_of rawDimension in
  let fullDimensionsList := [rawDimension] in
  fold_left
    (fun (fullDimensionsList : list DimensionSet) targetDimensions =>
       let targets := elems_of targetDimensions in
       let '(i, extraDimensions) :=
         rollup_fill rawDimensionMap targets 0 (replicate (length targets) None) in
       if bool_decide (i = length targets)
          && negb (DeepEqual_dimensions rawDimension extraDimensions)
       then fullDimensionsList ++ [omap id extraDimensions]
       else fullDimensionsList)
    RollupDimensions fullDimensionsList.

(** The value of a key among the raw dimensions, read off the list itself:
    that of the last dimension with this name, none when no dimension has
    it. *)
Fixpoint raw_value (rawDimension : DimensionSet) (k : string) : option string :=
  match rawDimension with
  | [] => None
  | d :: rest =>
      match raw_value rest k with
      | Some v => Some v
      | None => if decide (Dimension_Name d = k) then Some (Dimension_Value d) else None
      end
  end.

(** The derived dimension-set of one rule, as the specification words it:
    exactly the rule's keys, in the rule's order, with the values of the raw
    dimensions; none if a key is absent or if the result is the raw set. *)
Definition derived_set (rawDimension : DimensionSet) (rule : StringSlice)
    : option DimensionSet :=
  ds ← mapM (fun k => v ← raw_value rawDimension k; Some (mkDimension k v))
         (elems_of rule);
  if decide (ds = rawDimension) then None else Some ds.

Definition rollup_spec (RollupDimensions : list StringSlice) (rawDimension : DimensionSet)
    : list DimensionSet :=
  rawDimension :: omap (derived_set rawDimension) RollupDimensions.

(** ** Points, distributions and datums *)

(** A [time.Time]; [Unix] is the number of whole seconds since the epoch. *)
Record Time : Type := mkTime {
  Unix : Z;
  Nanosecond : Z
}.

#[global] Instance Time_eq_dec : EqDecision Time.
Proof. solve_decision. Defined.

Module distribution.

(** Modelled from the spec: the [distribution.Distribution] interface is
    declared in package [metric/distribution], outside the plugin's file. A
    distribution has a sample count, sum, minimum, maximum, a unit string
    and an ordered sequence of (value, count) pairs whose length is its
    size. *)
Record Distribution : Type := mkDistribution {
  Maximum : float64;
  Minimum : float64;
  SampleCount : float64;
  Sum : float64;
  Unit : string;
  Buckets : list (float64 * float64)
}.

Definition Size (d : Distribution) : nat := length (Buckets d).

Definition ValuesAndCounts (d : Distribution) : list float64 * list float64 :=
  ((Buckets d).*1, (Buckets d).*2).

#[global] Instance Distribution_eq_dec : EqDecision Distribution.
Proof. solve_decision. Defined.

End distribution.

(** The dynamic type of a field value ([interface{}]). [V_other] stands for
    a value of any type the switch of [BuildMetricDatum] does not list, a
    string for instance. *)
Inductive FieldValue : Type :=
  | V_uint (t : Z)
  | V_uint8 (t : Z)
  | V_uint16 (t : Z)
  | V_uint32 (t : Z)
  | V_uint64 (t : Z)
  | V_int (t : Z)
  | V_int8 (t : Z)
  | V_int16 (t : Z)
  | V_int32 (t : Z)
  | V_int64 (t : Z)
  | V_float32 (t : spec_float)
  | V_float64 (t : float64)
  | V_bool (t : bool)
  | V_Time (t : Time)
  | V_Distribution (t : distribution.Distribution)
  | V_other (t : string).

#[global] Instance FieldValue_eq_dec : EqDecision FieldValue.
Proof. solve_decision. Defined.

(** [float64(t)] for a [float32]: exact, every binary32 number is a binary64
    number. *)
Definition float64_of_float32 (t : spec_float) : float64 :=
  match t with
  | S754_finite s m e => binary_round 53 1024 s m e
  | _ => t
  end.

Module telegraf.

(** A [telegraf.Metric], by what its accessors return. *)
Record Metric : Type := mkMetric {
  Name : string;
  Tags : gmap string string;
  Fields : gmap string FieldValue;
  Time : Time
}.

Definition RemoveTag (m : Metric) (key : string) : Metric :=
  {| Name := Name m; Tags := delete key (Tags m); Fields := Fields m; Time := Time m |}.

End telegraf.

Record StatisticSet : Type := mkStatisticSet {
  StatisticSet_Maximum : option float64;
  StatisticSet_Minimum : option float64;
  StatisticSet_SampleCount : option float64;
  StatisticSet_Sum : option float64
}.

#[global] Instance StatisticSet_eq_dec : EqDecision StatisticSet.
Proof. solve_decision. Defined.

(** A [cloudwatch.MetricDatum]; the pointer fields are options. *)
Record MetricDatum : Type := mkMetricDatum {
  MetricName : option string;
  Dimensions : DimensionSet;
  Timestamp : option Time;
  Value : option float64;
  Values : list float64;
  Counts : list float64;
  StatisticValues : option StatisticSet;
  Unit : option string;
  StorageResolution : option Z
}.

#[global] Instance MetricDatum_eq_dec : EqDecision MetricDatum.
Proof. solve_decision. Defined.

Definition SetUnit (datum : MetricDatum) (v : string) : MetricDatum :=
  {| MetricName := MetricName datum; Dimensions := Dimensions datum;
     Timestamp := Timestamp datum; Value := Value datum; Values := Values datum;
     Counts := Counts datum; StatisticValues := StatisticValues datum;
     Unit := Some v; StorageResolution := StorageResolution datum |}.

Definition SetStorageResolution (datum : MetricDatum) (v : Z) : MetricDatum :=
  {| MetricName := MetricName datum; Dimensions := Dimensions datum;
     Timestamp := Timestamp datum; Value := Value datum; Values := Values datum;
     Counts := Counts datum; StatisticValues := StatisticValues datum;
     Unit := Unit datum; StorageResolution := Some v |}.

Definition SetValues (datum : MetricDatum) (v : list float64) : MetricDatum :=
  {| MetricName := MetricName datum; Dimensions := Dimensions datum;
     Timestamp := Timestamp datum; Value := Value datum; Values := v;
     Counts := Counts datum; StatisticValues := StatisticValues datum;
     Unit := Unit datum; StorageResolution := StorageResolution datum |}.

Definition SetCounts (datum : MetricDatum) (v : list float64) : MetricDatum :=
  {| MetricName := MetricName datum; Dimensions := Dimensions datum;
     Timestamp := Timestamp datum; Value := Value datum; Values := Values datum;
     Counts := v; StatisticValues := StatisticValues datum;
     Unit := Unit datum; StorageResolution := StorageResolution datum |}.

Definition SetStatisticValues (datum : MetricDatum) (v : StatisticSet) : MetricDatum :=
  {| MetricName := MetricName datum; Dimensions := Dimensions datum;
     Timestamp := Timestamp datum; Value := Value datum; Values := Values datum;
     Counts := Counts datum; StatisticValues := Some v;
     Unit := Unit datum; StorageResolution := StorageResolution datum |}.

(** ** What the plugin takes from other packages *)

(** [MetricDecorations], with its [getRename] and [getUnit], is declared in
    another file of the package; only what the two methods return matters
    here, so it is kept abstract. *)
Record MetricDecorations : Type := mkMetricDecorations {
  getRename : string -> string -> string;
  getUnit : string -> string -> string
}.

(** [runtime.GOOS]; the helpers [resize] and [payload] and the two size
    constants, which are declared in the package's utility file; and the two
    error codes, which are constants of the AWS SDK. The plugin's functions
    are stated for any value of these. *)
Class Externals : Type := mkExternals {
  GOOS : string;
  resize : distribution.Distribution -> Z -> list distribution.Distribution;
  payload : MetricDatum -> Z;
  overallConstPerRequestSize : Z;
  namespaceOverheads : Z;
  ErrCodeLimitExceededFault : string;
  ErrCodeInternalServiceFault : string
}.

(** ** Constants *)

Definition defaultMaxDatumsPerCall : Z := 20.
Definition defaultMaxValuesPerDatum : Z := 150.
Definition bottomLinePayloadSizeToPublish : Z := 200000.
Definition datumBatchChanBufferSize : Z := 50.
Definition pushIntervalInSec : Z := 60.
Definition highResolutionTagKey : string := "aws:StorageResolution".
Definition defaultRetryCount : Z := 5.
Definition backoffRetryBase : Z := 200.

(** [time.Duration] counts nanoseconds. *)
Definition Millisecond : Z := 1000000.
Definition Second : Z := 1000000000.

(** ** The plugin's state *)

Record MetricDatumBatch : Type := mkMetricDatumBatch {
  batch_MaxDatumsPerCall : Z;
  Partition : list MetricDatum;
  BeginTime : Z;
  Size : Z;
  perRequestConstSize : Z
}.

(** The fields of [CloudWatch] that the functions below read or write.
    [datumBatchChan] holds every batch sent on the channel so far, oldest
    first (a send on a full channel waits for the publishing loop, which
    changes when a batch is sent, not which); [ForceFlushInterval] is a
    duration. *)
Record CloudWatch : Type := mkCloudWatch {
  ForceFlushInterval : Z;
  MaxDatumsPerCall : Z;
  MaxValuesPerDatum : Z;
  RollupDimensions : list StringSlice;
  Namespace : string;
  datumBatchChan : list (list MetricDatum);
  metricDatumBatch : MetricDatumBatch;
  metricDecorations : option MetricDecorations;
  retries : Z
}.

Definition set_metricDatumBatch (c : CloudWatch) (b : MetricDatumBatch) : CloudWatch :=
  {| ForceFlushInterval := ForceFlushInterval c; MaxDatumsPerCall := MaxDatumsPerCall c;
     MaxValuesPerDatum := MaxValuesPerDatum c; RollupDimensions := RollupDimensions c;
     Namespace := Namespace c; datumBatchChan := datumBatchChan c;
     metricDatumBatch := b; metricDecorations := metricDecorations c;
     retries := retries c |}.

Definition send_datumBatchChan (c : CloudWatch) (batch : list MetricDatum) : CloudWatch :=
  {| ForceFlushInterval := ForceFlushInterval c; MaxDatumsPerCall := MaxDatumsPerCall c;
     MaxValuesPerDatum := MaxValuesPerDatum c; RollupDimensions := RollupDimensions c;
     Namespace := Namespace c; datumBatchChan := datumBatchChan c ++ [batch];
     metricDatumBatch := metricDatumBatch c; metricDecorations := metricDecorations c;
     retries := retries c |}.

Definition set_retries (c : CloudWatch) (r : Z) : CloudWatch :=
  {| ForceFlushInterval := ForceFlushInterval c; MaxDatumsPerCall := MaxDatumsPerCall c;
     MaxValuesPerDatum := MaxValuesPerDatum c; RollupDimensions := RollupDimensions c;
     Namespace := Namespace c; datumBatchChan := datumBatchChan c;
     metricDatumBatch := metricDatumBatch c; metricDecorations := metricDecorations c;
     retries := r |}.

(** ** BuildMetricDatum *)

(** [strings.EqualFold] against a string of ASCII letters none of which has a
    non-ASCII case-folding partner (only [k] and [s] have one), which is the
    case of its one use here, against ["true"]. *)
Definition fold_case (a : ascii) : ascii :=
  let n := nat_of_ascii a in
  if ((65 <=? n) && (n <=? 90))%nat then ascii_of_nat (n + 32) else a.

Fixpoint EqualFold (s t : string) : bool :=
  match s, t with
  | EmptyString, EmptyString => true
  | String a s', String b t' => bool_decide (fold_case a = fold_case b) && EqualFold s' t'
  | _, _ => false
  end.

Definition strings_Join (elems : list string) (sep : string) : string :=
  String.concat sep elems.

Section Builder.
Context `{Externals}.

Definition decorateMetricName (c : CloudWatch) (category name : string) : string :=
  let decoratedName :=
    match metricDecorations c with
    | Some d => getRename d category name
    | None => ""
    end in
  if decide (decoratedName = "") then
    if decide (name = "value") then category
    else
      let separator := if decide (GOOS = "windows") then " " else "_" in
      strings_Join [category; name] separator
  else decoratedName.

Definition decorateMetricUnit (c : CloudWatch) (category name : string) : string :=
  match metricDecorations c with
  | Some d => getUnit d category name
  | None => ""
  end.

(** The type switch on a field's value: [None] is [continue], otherwise the
    [value], [distList] and [unit] the case leaves behind. *)
Definition field_switch (c : CloudWatch) (v : FieldValue)
    : option (float64 * list distribution.Distribution * string) :=
  let zero : float64 := S754_zero false in
  match v with
  | V_uint t | V_uint8 t | V_uint16 t | V_uint32 t | V_uint64 t
  | V_int t | V_int8 t | V_int16 t | V_int32 t | V_int64 t =>
      Some (float64_of_Z t, [], "")
  | V_float32 t => Some (float64_of_float32 t, [], "")
  | V_float64 t => Some (t, [], "")
  | V_bool t => Some (if t then float64_of_Z 1 else float64_of_Z 0, [], "")
  | V_Time t => Some (float64_of_Z (Unix t), [], "")
  | V_Distribution t =>
      if decide (distribution.Size t = 0%nat) then None
      else Some (zero, resize t (MaxValuesPerDatum c), distribution.Unit t)
  | V_other _ => None
  end.

Definition scalar_datum (metricName : string) (dimensions : DimensionSet)
    (timestamp : Time) (value : float64) (unit : string) (isHighResolution : bool)
    : MetricDatum :=
  let datum :=
    {| MetricName := Some metricName; Dimensions := dimensions;
       Timestamp := Some timestamp; Value := Some value; Values := []; Counts := [];
       StatisticValues := None; Unit := None; StorageResolution := None |} in
  let datum := if decide (unit ≠ "") then SetUnit datum unit else datum in
  let datum := if isHighResolution then SetStorageResolution datum 1 else datum in
  datum.

Definition distribution_datum (metricName : string) (dimensions : DimensionSet)
    (timestamp : Time) (dist : distribution.Distribution) (unit : string)
    (isHighResolution : bool) : MetricDatum :=
  let datum :=
    {| MetricName := Some metricName; Dimensions := dimensions;
       Timestamp := Some timestamp; Value := None; Values := []; Counts := [];
       StatisticValues := None; Unit := None; StorageResolution := None |} in
  let '(values, counts) := distribution.ValuesAndCounts dist in
  let datum := SetValues datum values in
  let datum := SetCounts datum counts in
  let datum :=
    SetStatisticValues datum
      {| StatisticSet_Maximum := Some (distribution.Maximum dist);
         StatisticSet_Minimum := Some (distribution.Minimum dist);
         StatisticSet_SampleCount := Some (distribution.SampleCount dist);
         StatisticSet_Sum := Some (distribution.Sum dist) |} in
  let datum := if decide (unit ≠ "") then SetUnit datum unit else datum in
  let datum := if isHighResolution then SetStorageResolution datum 1 else datum in
  datum.

(** One iteration of [for k, v := range point.Fields()]. *)
Definition BuildMetricDatum_field (c : CloudWatch) (point : telegraf.Metric)
    (isHighResolution : bool) (dimensionsList : list DimensionSet)
    (datums : list MetricDatum) (k : string) (v : FieldValue) : list MetricDatum :=
  match field_switch c v with
  | None => datums
  | Some (value, distList, unit) =>
      let metricName := decorateMetricName c (telegraf.Name point) k in
      let unit :=
        if decide (unit = "") then decorateMetricUnit c (telegraf.Name point) k
        else unit in
      fold_left
        (fun datums dimensions =>
           if decide (length distList = 0%nat) then
             datums ++ [scalar_datum metricName dimensions (telegraf.Time point)
                          value unit isHighResolution]
           else
             fold_left
               (fun datums dist =>
                  datums ++ [distribution_datum metricName dimensions
                               (telegraf.Time point) dist unit isHighResolution])
               distList datums)
        dimensionsList datums
  end.

(** [visit] is the order in which [range point.Fields()] yields the fields.
    The point is a reference and [RemoveTag] changes it, so the point is
    returned along with the datums. *)
Definition BuildMetricDatum (c : CloudWatch) (point : telegraf.Metric)
    (visit : list (string * FieldValue)) : telegraf.Metric * list MetricDatum :=
  let '(isHighResolution, point) :=
    match telegraf.Tags point !! highResolutionTagKey with
    | Some highResolutionValue =>
        if EqualFold highResolutionValue "true"
        then (true, telegraf.RemoveTag point highResolutionTagKey)
        else (false, point)
    | None => (false, point)
    end in
  let rawDimensions := BuildDimensions (telegraf.Tags point) in
  let dimensionsList := ProcessRollup (RollupDimensions c) rawDimensions in
  let datums :=
    fold_left
      (fun datums '(k, v) =>
         BuildMetricDatum_field c point isHighResolution dimensionsList datums k v)
      visit [] in
  (point, datums).

(** The cross product the specification describes, for one field and for a
    whole visiting order. *)
Definition field_product (c : CloudWatch) (point : telegraf.Metric)
    (isHighResolution : bool) (dimensionsList : list DimensionSet)
    (k : string) (v : FieldValue) : list MetricDatum :=
  match field_switch c v with
  | None => []
  | Some (value, distList, unit) =>
      let metricName := decorateMetricName c (telegraf.Name point) k in
      let unit :=
        if decide (unit = "") then decorateMetricUnit c (telegraf.Name point) k
        else unit in
      dimensions ← dimensionsList;
      match distList with
      | [] => [scalar_datum metricName dimensions (telegraf.Time point)
                 value unit isHighResolution]
      | _ => (fun dist => distribution_datum metricName dimensions
                            (telegraf.Time point) dist unit isHighResolution)
             <$> distList
      end
  end.

(** How many datums one field stands for in the count of the specification:
    one for a scalar, the number of chunks for a distribution, none for a
    distribution of size 0 or an unsupported value. *)
Definition chunk_count (c : CloudWatch) (v : FieldValue) : nat :=
  match v with
  | V_Distribution t =>
      if decide (distribution.Size t = 0%nat) then 0%nat
      else length (resize t (MaxValuesPerDatum c))
  | V_other _ => 0%nat
  | _ => 1%nat
  end.

End Builder.

(** ** The batch accumulator and pushMetricDatum *)

Section Batching.
Context `{Externals}.

(** [now] is what [time.Now()] returns. [make] with a negative capacity
    panics, which is [None]. *)
Definition newMetricDatumBatch (now maxDatumsPerCall perRequestConstSize : Z)
    : option MetricDatumBatch :=
  if decide (maxDatumsPerCall < 0) then None
  else
    Some {| batch_MaxDatumsPerCall := maxDatumsPerCall; Partition := [];
            BeginTime := now; Size := perRequestConstSize;
            perRequestConstSize := perRequestConstSize |}.

(** The capacity is the one [newMetricDatumBatch] was given. *)
Definition clear (now : Z) (b : MetricDatumBatch) : MetricDatumBatch :=
  {| batch_MaxDatumsPerCall := batch_MaxDatumsPerCall b; Partition := [];
     BeginTime := now; Size := perRequestConstSize b;
     perRequestConstSize := perRequestConstSize b |}.

Definition isFull (b : MetricDatumBatch) : bool :=
  bool_decide (batch_MaxDatumsPerCall b ≤ Z.of_nat (length (Partition b)))
  || bool_decide (bottomLinePayloadSizeToPublish ≤ Size b).

Definition timeToPublish (now : Z) (c : CloudWatch) (b : MetricDatumBatch) : bool :=
  bool_decide (0 < length (Partition b))%nat
  && bool_decide (ForceFlushInterval c ≤ now - BeginTime b).

(** The part of [startRoutines] that sets the defaults and the first batch;
    the channel starts empty. *)
Definition startRoutines (now : Z) (c : CloudWatch) : option CloudWatch :=
  let forceFlushInterval :=
    if decide (ForceFlushInterval c = 0) then pushIntervalInSec * Second
    else ForceFlushInterval c in
  let maxDatumsPerCall :=
    if decide (MaxDatumsPerCall c = 0) then defaultMaxDatumsPerCall
    else MaxDatumsPerCall c in
  let maxValuesPerDatum :=
    if decide (MaxValuesPerDatum c = 0) then defaultMaxValuesPerDatum
    else MaxValuesPerDatum c in
  let perRequestConstSize :=
    int_wrap (int_wrap (overallConstPerRequestSize
                        + Z.of_nat (String.length (Namespace c)))
              + namespaceOverheads) in
  b ← newMetricDatumBatch now maxDatumsPerCall perRequestConstSize;
  Some {| ForceFlushInterval := forceFlushInterval;
          MaxDatumsPerCall := maxDatumsPerCall;
          MaxValuesPerDatum := maxValuesPerDatum;
          RollupDimensions := RollupDimensions c; Namespace := Namespace c;
          datumBatchChan := []; metricDatumBatch := b;
          metricDecorations := metricDecorations c; retries := retries c |}.

(** One iteration of the loop over the datums of a point. *)
Definition append_datum (now : Z) (c : CloudWatch) (datum : MetricDatum) : CloudWatch :=
  let b := metricDatumBatch c in
  let b :=
    {| batch_MaxDatumsPerCall := batch_MaxDatumsPerCall b;
       Partition := Partition b ++ [datum]; BeginTime := BeginTime b;
       Size := int_wrap (Size b + payload datum);
       perRequestConstSize := perRequestConstSize b |} in
  let c := set_metricDatumBatch c b in
  if isFull b
  then set_metricDatumBatch (send_datumBatchChan c (Partition b)) (clear now b)
  else c.

(** What the [select] of [pushMetricDatum] can receive. A point comes with
    the order in which its fields will be visited. *)
Inductive Received : Type :=
  | recv_metricChan (point : telegraf.Metric) (visit : list (string * FieldValue))
  | recv_ticker
  | recv_shutdownChan.

(** The loop of [pushMetricDatum], run over the receptions in the order they
    happen, each with the clock reading at that moment. *)
Fixpoint pushMetricDatum (events : list (Z * Received)) (c : CloudWatch) : CloudWatch :=
  match events with
  | [] => c
  | (now, recv_metricChan point visit) :: rest =>
      let datums := (BuildMetricDatum c point visit).2 in
      pushMetricDatum rest (fold_left (append_datum now) datums c)
  | (now, recv_ticker) :: rest =>
      let b := metricDatumBatch c in
      if timeToPublish now c b
      then pushMetricDatum rest
             (set_metricDatumBatch (send_datumBatchChan c (Partition b)) (clear now b))
      else pushMetricDatum rest c
  | (_, recv_shutdownChan) :: _ => c
  end.

(** The size estimate a batch has accumulated: the per-request constant
    plus the payload of each datum, in order. *)
Definition batch_size (perRequestConstSize : Z) (partition : list MetricDatum) : Z :=
  fold_left (fun size datum => int_wrap (size + payload datum)) partition
    perRequestConstSize.

End Batching.

(** ** backoffSleep and WriteToCloudWatch *)

(** What [PutMetricData] returns beside [nil]: an [awserr.Error] with its
    code, or an error of another type. *)
Inductive PutMetricDataError : Type :=
  | awserr_Error (code : string)
  | other_error.

#[global] Instance PutMetricDataError_eq_dec : EqDecision PutMetricDataError.
Proof. solve_decision. Defined.

(** What the publisher does that can be observed. *)
Inductive Action : Type :=
  | do_PutMetricData
  | do_Sleep (sleepDuration : Z)
  | do_log_failure (err : PutMetricDataError).

#[global] Instance Action_eq_dec : EqDecision Action.
Proof. solve_decision. Defined.

Section Retry.
Context `{Externals}.

(** [int64(backoffRetryBase * math.Pow(2, float64(c.retries)))]: the product
    is a float64 that is exact for [0 <= retries <= 5]; below zero the
    conversion truncates 200 / 2^(-retries). *)
Definition backoff_pow (retries : Z) : Z :=
  if decide (0 ≤ retries) then backoffRetryBase * 2 ^ retries
  else backoffRetryBase `div` 2 ^ (- retries).

(** Returns the state with the counter incremented and the time slept; the
    code increments the counter just before it sleeps. *)
Definition backoffSleep (c : CloudWatch) : CloudWatch * Z :=
  let backoffInMillis := 60 * 1000 in
  let backoffInMillis :=
    if decide (retries c ≤ defaultRetryCount) then backoff_pow (retries c)
    else backoffInMillis in
  let sleepDuration := Millisecond * backoffInMillis in
  (set_retries c (int_wrap (retries c + 1)), sleepDuration).

(** The [for i := 0; i < defaultRetryCount; i++] loop; [remaining] is
    [defaultRetryCount - i]. [svc i] is the outcome of the call made in
    iteration [i]. The result carries the last [err] and the actions taken. *)
Fixpoint WriteToCloudWatch_loop (svc : nat -> option PutMetricDataError)
    (remaining i : nat) (c : CloudWatch) (err : option PutMetricDataError)
    (trace : list Action) : CloudWatch * option PutMetricDataError * list Action :=
  match remaining with
  | O => (c, err, trace)
  | S remaining =>
      let err := svc i in
      let trace := trace ++ [do_PutMetricData] in
      match err with
      | Some other_error =>
          let '(c, d) := backoffSleep c in
          WriteToCloudWatch_loop svc remaining (S i) c err (trace ++ [do_Sleep d])
      | Some (awserr_Error code) =>
          if decide (code = ErrCodeLimitExceededFault
                     ∨ code = ErrCodeInternalServiceFault)
          then
            let '(c, d) := backoffSleep c in
            WriteToCloudWatch_loop svc remaining (S i) c err (trace ++ [do_Sleep d])
          else
            let '(c, d) := backoffSleep c in
            (c, err, trace ++ [do_Sleep d])
      | None => (set_retries c 0, err, trace)
      end
  end.

Definition WriteToCloudWatch (svc : nat -> option PutMetricDataError) (c : CloudWatch)
    : CloudWatch * list Action :=
  let '(c, err, trace) :=
    WriteToCloudWatch_loop svc (Z.to_nat defaultRetryCount) 0 c None [] in
  match err with
  | Some e => (c, trace ++ [do_log_failure e])
  | None => (c, trace)
  end.

Definition attempts (trace : list Action) : nat :=
  length (filter (fun a => a = do_PutMetricData) trace).

Definition sleeps (trace : list Action) : list Z :=
  omap (fun a => match a with do_Sleep d => Some d | _ => None end) trace.

End Retry.

(** ** The specification's view of the functions *)

(** What one pass of the inner loop of [GetUniqueRollupList] comes to. *)
Definition add_unique (uniqueLists : list StringSlice) (x : StringSlice)
    : list StringSlice :=
  if decide (x ∈ uniqueLists) then uniqueLists else uniqueLists ++ [x].

(** The [host] dimension, if the tag is there and not empty. *)
Definition host_dimension (mTags : gmap string string) : DimensionSet :=
  match mTags !! "host" with
  | Some host => if decide (host ≠ "") then [mkDimension "host" host] else []
  | None => []
  end.

(** The dimension of each key that has a non-empty value, in the order of
    the keys. *)
Definition tag_dimensions (mTags : gmap string string) (keys : list string)
    : DimensionSet :=
  omap (fun k =>
          match mTags !! k with
          | Some v => if decide (v = "") then None else Some (mkDimension k v)
          | None => None
          end) keys.

(** One key of a rule, looked up among the raw dimensions. *)
Definition rollup_dimension (m : gmap string string) (k : string) : option Dimension :=
  v ← m !! k; Some (mkDimension k v).

(** Whether the point asks for high resolution, and the point as
    [BuildMetricDatum] leaves it. *)
Definition isHighResolution (point : telegraf.Metric) : bool :=
  match telegraf.Tags point !! highResolutionTagKey with
  | Some highResolutionValue => EqualFold highResolutionValue "true"
  | None => false
  end.

Definition point_after (point : telegraf.Metric) : telegraf.Metric :=
  if isHighResolution point then telegraf.RemoveTag point highResolutionTagKey
  else point.

(** The dimension-sets every field of the point is emitted under. *)
Definition dimensionsList_of (c : CloudWatch) (point : telegraf.Metric)
    : list DimensionSet :=
  ProcessRollup (RollupDimensions c) (BuildDimensions (telegraf.Tags (point_after point))).

(** The exact float64 values 1 and +0. *)
Definition float64_one : float64 := S754_finite false 4503599627370496 (-52).

Definition float64_zero : float64 := S754_zero false.

(** A batch fit for the channel: between 1 and [M] datums, and below the
    payload ceiling before its last datum, [K] being the per-request
    constant. *)
Definition batch_ok `{Externals} (K M : Z) (partition : list MetricDatum) : Prop :=
  (1 ≤ length partition)%nat
  ∧ Z.of_nat (length partition) ≤ M
  ∧ (K < bottomLinePayloadSizeToPublish →
     batch_size K (removelast partition) < bottomLinePayloadSizeToPublish).

(** What holds of the plugin state between two receptions: the batch in
    progress is not full and its [Size] is the estimate of its datums; every
    batch on the channel is fit for it. *)
Definition push_inv `{Externals} (K M : Z) (c : CloudWatch) : Prop :=
  MaxDatumsPerCall c = M
  ∧ batch_MaxDatumsPerCall (metricDatumBatch c) = M
  ∧ perRequestConstSize (metricDatumBatch c) = K
  ∧ 1 ≤ M
  ∧ Z.of_nat (length (Partition (metricDatumBatch c))) < M
  ∧ Size (metricDatumBatch c) = batch_size K (Partition (metricDatumBatch c))
  ∧ (K < bottomLinePayloadSizeToPublish →
     Size (metricDatumBatch c) < bottomLinePayloadSizeToPublish)
  ∧ (Partition (metricDatumBatch c) ≠ [] → batch_ok K M (Partition (metricDatumBatch c)))
  ∧ (∀ batch, batch ∈ datumBatchChan c → batch_ok K M batch).

(** The errors after which the loop goes on to another attempt. *)
Definition retried `{Externals} (e : PutMetricDataError) : Prop :=
  match e with
  | other_error => True
  | awserr_Error code =>
      code = ErrCodeLimitExceededFault ∨ code = ErrCodeInternalServiceFault
  end.

(** The time slept when the counter is [retries]. *)
Definition sleepDuration_at (retries : Z) : Z :=
  Millisecond * (if decide (retries ≤ 5) then backoff_pow retries else 60 * 1000).

(** The counter after [n] calls of [backoffSleep]. *)
Fixpoint bump (retries : Z) (n : nat) : Z :=
  match n with
  | O => retries
  | S n => bump (int_wrap (retries + 1)) n
  end.

(** The times slept by [n] calls of [backoffSleep] in a row. *)
Fixpoint backoff_schedule (retries : Z) (n : nat) : list Z :=
  match n with
  | O => []
  | S n => sleepDuration_at retries :: backoff_schedule (int_wrap (retries + 1)) n
  end.

(** [n] failed attempts, each followed by its sleep. *)
Fixpoint retry_trace (retries : Z) (n : nat) : list Action :=
  match n with
  | O => []
  | S n =>
      do_PutMetricData :: do_Sleep (sleepDuration_at retries)
      :: retry_trace (int_wrap (retries + 1)) n
  end.

(** ** A concrete environment and sample inputs *)

Fixpoint chunks {A} (fuel n : nat) (l : list A) : list (list A) :=
  match fuel with
  | O => []
  | S fuel =>
      match l with
      | [] => []
      | _ => take n l :: chunks fuel n (drop n l)
      end
  end.

(** Modelled from the spec: [resize] is declared in the package's utility
    file, outside the plugin's file. A distribution of size 0 gives no chunk,
    one of size at most [listMaxSize] gives itself, a larger one is cut into
    chunks of at most [listMaxSize] pairs that keep the aggregate statistics
    of the original. *)
Definition resize_model (dist : distribution.Distribution) (listMaxSize : Z)
    : list distribution.Distribution :=
  if decide (distribution.Size dist = 0%nat) then []
  else if decide (Z.of_nat (distribution.Size dist) ≤ Z.max 1 listMaxSize) then [dist]
  else
    (fun buckets =>
       {| distribution.Maximum := distribution.Maximum dist;
          distribution.Minimum := distribution.Minimum dist;
          distribution.SampleCount := distribution.SampleCount dist;
          distribution.Sum := distribution.Sum dist;
          distribution.Unit := distribution.Unit dist;
          distribution.Buckets := buckets |})
    <$> chunks (distribution.Size dist) (Z.to_nat (Z.max 1 listMaxSize))
          (distribution.Buckets dist).

(** Modelled from the spec: [payload] is declared in the same utility file;
    the spec says that it estimates the serialized size of a datum. This
    estimate counts the bytes of the datum's name and dimensions and eight
    bytes per number, with no overhead. *)
Definition payload_model (datum : MetricDatum) : Z :=
  Z.of_nat (String.length (default "" (MetricName datum)))
  + Z.of_nat (sum_list_with
                (fun d => String.length (Dimension_Name d)
                          + String.length (Dimension_Value d))%nat
                (Dimensions datum))
  + 8 * Z.of_nat (length (Values datum) + length (Counts datum))
  + match Value datum with Some _ => 8 | None => 0 end.

Definition linux_externals : Externals :=
  {| GOOS := "linux";
     resize := resize_model;
     payload := payload_model;
     overallConstPerRequestSize := 0;
     namespaceOverheads := 0;
     ErrCodeLimitExceededFault := "LimitExceeded";
     ErrCodeInternalServiceFault := "InternalServiceError" |}.

(** A configuration with one rollup rule, and two points. *)
Definition sample_config : CloudWatch :=
  {| ForceFlushInterval := 0; MaxDatumsPerCall := 0; MaxValuesPerDatum := 2;
     RollupDimensions := [Slice ["az"]]; Namespace := "CWAgent";
     datumBatchChan := [];
     metricDatumBatch := mkMetricDatumBatch 0 [] 0 0 0;
     metricDecorations := None; retries := 0 |}.

Definition sample_distribution : distribution.Distribution :=
  {| distribution.Maximum := float64_of_Z 3;
     distribution.Minimum := float64_of_Z 1;
     distribution.SampleCount := float64_of_Z 3;
     distribution.Sum := float64_of_Z 6;
     distribution.Unit := "Count";
     distribution.Buckets :=
       [(float64_of_Z 1, float64_of_Z 1); (float64_of_Z 2, float64_of_Z 1);
        (float64_of_Z 3, float64_of_Z 1)] |}.

Definition sample_point : telegraf.Metric :=
  {| telegraf.Name := "cpu";
     telegraf.Tags := <["host" := "h1"]> (<["az" := "us-east-1a"]> ∅);
     telegraf.Fields :=
       <["usage_idle" := V_int 42]>
         (<["up" := V_bool true]>
            (<["seen" := V_Time (mkTime 1700000000 0)]>
               (<["latency" := V_Distribution sample_distribution]> ∅)));
     telegraf.Time := mkTime 1700000000 0 |}.

Definition highres_point : telegraf.Metric :=
  {| telegraf.Name := "cpu";
     telegraf.Tags := <["host" := "h1"]> (<[highResolutionTagKey := "true"]> ∅);
     telegraf.Fields := <["a" := V_int 1]> (<["b" := V_int 2]> ∅);
     telegraf.Time := mkTime 1700000000 0 |}.

(** A point with one tag whose value is 200000 bytes long. *)
Definition long_value : string :=
  N.iter 200000 (String "x"%char) EmptyString.

Definition long_point : telegraf.Metric :=
  {| telegraf.Name := "disk";
     telegraf.Tags := <["path" := long_value]> ∅;
     telegraf.Fields := <["used" := V_int 1]> ∅;
     telegraf.Time := mkTime 1700000000 0 |}.

Definition two_ticks : list (Z * Received) :=
  [(1, recv_metricChan sample_point (map_to_list (telegraf.Fields sample_point)));
   (2, recv_ticker);
   (70 * Second, recv_ticker)].

Definition started_config : CloudWatch :=
  default sample_config (startRoutines (H:=linux_externals) 0 sample_config).

Definition throttled_twice (i : nat) : option PutMetricDataError :=
  match i with
  | 0%nat => Some other_error
  | 1%nat => Some (awserr_Error "LimitExceeded")
  | _ => Some (awserr_Error "InvalidParameterValue")
  end.

Definition throttled_then_ok (i : nat) : option PutMetricDataError :=
  match i with
  | 0%nat | 1%nat | 2%nat => Some (awserr_Error "LimitExceeded")
  | _ => None
  end.

(** A tag map with a host, an empty value and eleven other tags. *)
Definition many_tags : gmap string string :=
  list_to_map
    [("host", "h1"); ("empty", ""); ("t01", "a"); ("t02", "b"); ("t03", "c");
     ("t04", "d"); ("t05", "e"); ("t06", "f"); ("t07", "g"); ("t08", "h");
     ("t09", "i"); ("t10", "j"); ("t11", "k")].

(** ** More of the specification's view *)

(** The datums built from the points received, in order, up to the
    shutdown. *)
Fixpoint built_datums `{Externals} (c : CloudWatch) (events : list (Z * Received))
    : list MetricDatum :=
  match events with
  | [] => []
  | (_, recv_metricChan point visit) :: rest =>
      (BuildMetricDatum c point visit).2 ++ built_datums c rest
  | (_, recv_ticker) :: rest => built_datums c rest
  | (_, recv_shutdownChan) :: _ => []
  end.

(** Two states with the same configuration for [BuildMetricDatum]. *)
Definition same_config (c c' : CloudWatch) : Prop :=
  RollupDimensions c = RollupDimensions c'
  ∧ MaxValuesPerDatum c = MaxValuesPerDatum c'
  ∧ metricDecorations c = metricDecorations c'.

(** Every datum the plugin holds: those of the batches sent, then those of
    the batch in progress. *)
Definition held_datums (c : CloudWatch) : list MetricDatum :=
  concat (datumBatchChan c) ++ Partition (metricDatumBatch c).

(** A batch that had to be sent: the maximum number of datums, or a size
    estimate at or above the ceiling. *)
Definition full_batch `{Externals} (K M : Z) (partition : list MetricDatum) : Prop :=
  Z.of_nat (length partition) = M
  ∨ bottomLinePayloadSizeToPublish ≤ batch_size K partition.

#[global] Instance retried_dec `{Externals} (e : PutMetricDataError) :
  Decision (retried e).
Proof. destruct e; simpl; apply _. Defined.


(** Two points' worth of datums, with no tick of the timer. *)
Definition two_points : list (Z * Received) :=
  [(1, recv_metricChan sample_point (map_to_list (telegraf.Fields sample_point)));
   (2, recv_metricChan sample_point (map_to_list (telegraf.Fields sample_point)))].

(** The rename configured for a field of a category, empty when there is
    none. *)
Definition configured_rename (c : CloudWatch) (category name : string) : string :=
  match metricDecorations c with
  | Some d => getRename d category name
  | None => ""
  end.

(** ** WriteToCloudWatch among other workers *)

(** [Connect] hands [c.WriteToCloudWatch] to a publisher that runs up to
    [maxConcurrentPublisher] tasks at once, all of them on the one
    [CloudWatch] value: [c.retries] is shared, and nothing guards it.
    [others i] tells what the other workers did to the counter between this
    task's previous use of it and its call of [backoffSleep] in iteration
    [i]: [Some r] when they wrote it, [r] being the value they left, [None]
    when they did not. The reads and the increment inside one call of
    [backoffSleep] are taken together. The success branch overwrites the
    counter without reading it. *)
Definition found (others : nat → option Z) (i : nat) (c : CloudWatch) : CloudWatch :=
  match others i with
  | Some r => set_retries c r
  | None => c
  end.

Section RetryAmong.
Context `{Externals}.

Fixpoint WriteToCloudWatch_among_loop (others : nat → option Z)
    (svc : nat → option PutMetricDataError)
    (remaining i : nat) (c : CloudWatch) (err : option PutMetricDataError)
    (trace : list Action) : CloudWatch * option PutMetricDataError * list Action :=
  match remaining with
  | O => (c, err, trace)
  | S remaining =>
      let err := svc i in
      let trace := trace ++ [do_PutMetricData] in
      match err with
      | Some other_error =>
          let '(c, d) := backoffSleep (found others i c) in
          WriteToCloudWatch_among_loop others svc remaining (S i) c err
            (trace ++ [do_Sleep d])
      | Some (awserr_Error code) =>
          if decide (code = ErrCodeLimitExceededFault
                     ∨ code = ErrCodeInternalServiceFault)
          then
            let '(c, d) := backoffSleep (found others i c) in
            WriteToCloudWatch_among_loop others svc remaining (S i) c err
              (trace ++ [do_Sleep d])
          else
            let '(c, d) := backoffSleep (found others i c) in
            (c, err, trace ++ [do_Sleep d])
      | None => (set_retries c 0, err, trace)
      end
  end.

Definition WriteToCloudWatch_among (others : nat → option Z)
    (svc : nat → option PutMetricDataError) (c : CloudWatch)
    : CloudWatch * list Action :=
  let '(c, err, trace) :=
    WriteToCloudWatch_among_loop others svc (Z.to_nat defaultRetryCount) 0 c None [] in
  match err with
  | Some e => (c, trace ++ [do_log_failure e])
  | None => (c, trace)
  end.

End RetryAmong.

(** No other worker writes the counter while the task runs. *)
Definition alone (others : nat → option Z) : Prop := ∀ i, others i = None.

Definition no_others (i : nat) : option Z := None.

(** Another worker's send fails, or succeeds, while this task is in its
    second call of [PutMetricData]. *)
Definition another_failure (i : nat) : option Z :=
  match i with
  | 1%nat => Some 9
  | _ => None
  end.

Definition another_success (i : nat) : option Z :=
  match i with
  | 1%nat => Some 0
  | _ => None
  end.

(** * Properties *)

(** ** GetUniqueRollupList *)

Section Unique.

Lemma unique_scan_spec x rest : ∀ pre,
  rest ≠ [] →
  unique_scan x rest (length pre) (pre ++ rest)
  = if decide (x ∈ rest) then pre ++ rest else (pre ++ rest) ++ [x].
Proof.
  induction rest as [|u rest IH]; intros pre Hne; [done|].
  cbn [unique_scan]. unfold DeepEqual_strings.
  case_bool_decide as Hxu.
  { subst u. rewrite decide_True by left. done. }
  destruct rest as [|u' rest].
  - rewrite decide_True by (rewrite length_app; simpl; lia).
    cbn [unique_scan]. rewrite decide_False; [done|].
    rewrite list_elem_of_singleton. done.
  - rewrite decide_False by (rewrite length_app; simpl; lia).
    specialize (IH (pre ++ [u])).
    rewrite length_app, <- app_assoc in IH.
    change (length [u]) with 1%nat in IH.
    change ([u] ++ u' :: rest) with (u :: u' :: rest) in IH.
    rewrite Nat.add_1_r in IH.
    rewrite IH by done.
    destruct (decide (x ∈ u' :: rest)) as [Hin|Hnin].
    + rewrite decide_True by (right; done). done.
    + rewrite decide_False; [done|].
      rewrite elem_of_cons. intros [?|?]; done.
Qed.

Lemma unique_scan_add x uniqueLists :
  uniqueLists ≠ [] → unique_scan x uniqueLists 0 uniqueLists = add_unique uniqueLists x.
Proof. intros Hne. apply (unique_scan_spec x uniqueLists [] Hne). Qed.

Lemma add_unique_nonempty uniqueLists x : uniqueLists ≠ [] → add_unique uniqueLists x ≠ [].
Proof.
  unfold add_unique. intros Hne. case_decide; [done|].
  destruct uniqueLists; done.
Qed.

Lemma fold_unique_scan l : ∀ uniqueLists,
  uniqueLists ≠ [] →
  fold_left (fun us x => unique_scan x us 0 us) l uniqueLists
  = fold_left add_unique l uniqueLists.
Proof.
  induction l as [|x l IH]; intros us Hne; [done|].
  simpl. rewrite unique_scan_add by done.
  apply IH, add_unique_nonempty, Hne.
Qed.

Lemma fold_add_unique l : ∀ acc,
  fold_left add_unique l acc = acc ++ filter (fun y => y ∉ acc) (first_seen l).
Proof.
  induction l as [|x l IH]; intros acc; simpl.
  { by rewrite filter_nil, app_nil_r. }
  rewrite IH. unfold add_unique. rewrite filter_cons.
  destruct (decide (x ∈ acc)) as [Hin|Hnin].
  - rewrite decide_False by (intros Hn; done).
    f_equal. rewrite list_filter_filter. apply list_filter_iff.
    intros y. split; [|tauto]. intros Hy. split; [done|]. intros ->. done.
  - rewrite decide_True by done.
    rewrite <- app_assoc. simpl. do 2 f_equal.
    rewrite list_filter_filter. apply list_filter_iff.
    intros y. rewrite elem_of_app, list_elem_of_singleton. tauto.
Qed.

Lemma GetUniqueRollupList_first_seen l : GetUniqueRollupList l = first_seen l.
Proof.
  unfold GetUniqueRollupList. destruct l as [|x l]; [done|].
  rewrite fold_unique_scan by done.
  rewrite fold_add_unique. simpl. f_equal.
  rewrite filter_cons, decide_False.
  2:{ intros Hn. apply Hn. left. }
  rewrite list_filter_filter. apply list_filter_iff.
  intros y. rewrite list_elem_of_singleton. tauto.
Qed.

Lemma elem_of_first_seen (l : list StringSlice) x : x ∈ first_seen l ↔ x ∈ l.
Proof.
  induction l as [|a l IH]; simpl; [done|].
  rewrite !elem_of_cons, list_elem_of_filter, IH.
  destruct (decide (x = a)); tauto.
Qed.

Lemma NoDup_first_seen (l : list StringSlice) : NoDup (first_seen l).
Proof.
  induction l as [|a l IH]; simpl; [constructor|].
  constructor.
  - rewrite list_elem_of_filter. tauto.
  - by apply NoDup_filter.
Qed.

End Unique.

(** C9. [GetUniqueRollupList] keeps exactly one occurrence of each
    structurally distinct rule, in first-seen order: the output is the list of
    first occurrences; every output element appears in the input; no two
    output positions hold rules that [reflect.DeepEqual] identifies; every
    input rule is deeply equal to some output rule. *)
Theorem GetUniqueRollupList_unique (inputLists : list StringSlice) :
  GetUniqueRollupList inputLists = first_seen inputLists
  ∧ (∀ u, u ∈ GetUniqueRollupList inputLists → u ∈ inputLists)
  ∧ (∀ i j u v,
       GetUniqueRollupList inputLists !! i = Some u →
       GetUniqueRollupList inputLists !! j = Some v →
       DeepEqual_strings u v = true → i = j)
  ∧ (∀ x, x ∈ inputLists →
       ∃ u, u ∈ GetUniqueRollupList inputLists ∧ DeepEqual_strings x u = true).
Proof.
  rewrite GetUniqueRollupList_first_seen.
  split; [done|]. split; [|split].
  - intros u. by rewrite elem_of_first_seen.
  - intros i j u v Hi Hj Heq.
    apply bool_decide_eq_true in Heq. subst v.
    eapply NoDup_lookup; eauto using NoDup_first_seen.
  - intros x Hx. exists x. split; [by rewrite elem_of_first_seen|].
    by apply bool_decide_eq_true.
Qed.

(** ** BuildDimensions *)

Section Dimensions.

Lemma collect_keys visit : ∀ keys,
  fold_left (fun keys k => if decide (k ≠ "host") then keys ++ [k] else keys) visit keys
  = keys ++ filter (fun k => k ≠ "host") visit.
Proof.
  induction visit as [|k visit IH]; intros keys; simpl.
  { by rewrite filter_nil, app_nil_r. }
  rewrite IH, filter_cons. case_decide; [|done].
  by rewrite <- app_assoc.
Qed.

Lemma BuildDimensions_loop_take mTags keys : ∀ dimensions,
  BuildDimensions_loop mTags keys dimensions
  = dimensions ++ take (MaxDimensions - length dimensions) (tag_dimensions mTags keys).
Proof.
  induction keys as [|k keys IH]; intros dims; cbn [BuildDimensions_loop].
  { unfold tag_dimensions. simpl. by rewrite take_nil, app_nil_r. }
  case_decide as Hfull.
  { replace (MaxDimensions - length dims)%nat with 0%nat by lia.
    by rewrite take_0, app_nil_r. }
  unfold tag_dimensions. cbn [omap list_omap]. fold (tag_dimensions mTags keys).
  destruct (mTags !! k) as [v|]; simpl.
  - case_decide as Hv; [apply IH|].
    rewrite IH, length_app, <- app_assoc. simpl.
    destruct (MaxDimensions - length dims)%nat as [|n] eqn:Hn; [lia|].
    simpl. do 3 f_equal. lia.
  - apply IH.
Qed.

Lemma host_dimension_length mTags : (length (host_dimension mTags) ≤ 1)%nat.
Proof.
  unfold host_dimension. destruct (mTags !! "host"); [case_decide|]; simpl; lia.
Qed.

Lemma BuildDimensions_range_take mTags visit :
  BuildDimensions_range mTags visit
  = take MaxDimensions
      (host_dimension mTags
       ++ tag_dimensions mTags (sort_Strings (filter (fun k => k ≠ "host") visit))).
Proof.
  unfold BuildDimensions_range. rewrite collect_keys, BuildDimensions_loop_take.
  fold (host_dimension mTags). simpl.
  pose proof (host_dimension_length mTags).
  rewrite take_app, (take_ge (host_dimension mTags)); [done|].
  unfold MaxDimensions. lia.
Qed.

Lemma elem_of_tag_dimensions mTags keys d :
  d ∈ tag_dimensions mTags keys
  ↔ Dimension_Name d ∈ keys
    ∧ mTags !! Dimension_Name d = Some (Dimension_Value d)
    ∧ Dimension_Value d ≠ "".
Proof.
  unfold tag_dimensions. rewrite list_elem_of_omap. split.
  - intros (k & Hk & Hd). destruct (mTags !! k) as [v|] eqn:Hv; [|done].
    case_decide; simplify_eq. done.
  - intros (Hk & Hv & Hne). exists (Dimension_Name d). split; [done|].
    rewrite Hv, decide_False by done. by destruct d.
Qed.

Lemma tag_dimensions_sorted mTags keys :
  StronglySorted String.le keys →
  StronglySorted String.le (Dimension_Name <$> tag_dimensions mTags keys).
Proof.
  induction 1 as [|k keys Hs IH Hall]; [constructor|].
  unfold tag_dimensions. cbn [omap list_omap]. fold (tag_dimensions mTags keys).
  assert (Forall (String.le k) (Dimension_Name <$> tag_dimensions mTags keys)) as Hk.
  { rewrite Forall_forall in Hall. apply Forall_forall. intros n Hn.
    apply list_elem_of_fmap in Hn as (d & -> & Hd).
    apply elem_of_tag_dimensions in Hd as (Hd & _). by apply Hall. }
  destruct (mTags !! k) as [v|]; [case_decide|]; simpl; try done.
  by constructor.
Qed.

Lemma tag_dimensions_NoDup mTags keys :
  NoDup keys → NoDup (Dimension_Name <$> tag_dimensions mTags keys).
Proof.
  induction 1 as [|k keys Hk Hnd IH]; [constructor|].
  unfold tag_dimensions. cbn [omap list_omap]. fold (tag_dimensions mTags keys).
  destruct (mTags !! k) as [v|]; [case_decide|]; simpl; try done.
  constructor; [|done]. intros Hn.
  apply list_elem_of_fmap in Hn as (d & Hd1 & Hd).
  apply elem_of_tag_dimensions in Hd as (Hd & _).
  simpl in Hd1. by subst k.
Qed.

Lemma sort_Strings_sorted keys : StronglySorted String.le (sort_Strings keys).
Proof. apply StronglySorted_merge_sort; apply _. Qed.

Lemma sort_Strings_perm keys : sort_Strings keys ≡ₚ keys.
Proof. apply merge_sort_Permutation. Qed.

(** The result does not depend on the order in which the map is visited. *)
Lemma BuildDimensions_range_order mTags visit1 visit2 :
  visit1 ≡ₚ visit2 →
  BuildDimensions_range mTags visit1 = BuildDimensions_range mTags visit2.
Proof.
  intros Hp. rewrite !BuildDimensions_range_take. do 3 f_equal.
  apply (StronglySorted_unique String.le); auto using sort_Strings_sorted.
  by rewrite !sort_Strings_perm, Hp.
Qed.

Lemma BuildDimensions_range_canonical mTags visit :
  range_keys mTags visit → BuildDimensions_range mTags visit = BuildDimensions mTags.
Proof. intros Hv. by apply BuildDimensions_range_order. Qed.

End Dimensions.

(** C4. For every tag map and every order in which the map is visited,
    [BuildDimensions] returns at most 10 dimensions; a [host] tag with a
    non-empty value is the dimension at index 0; the result is the first 10 of
    the host dimension (if any) followed by the dimensions of exactly the
    other tags with non-empty values, sorted by key. *)
Theorem BuildDimensions_shape (mTags : gmap string string) (visit : list string) :
  range_keys mTags visit →
  (length (BuildDimensions_range mTags visit) ≤ 10)%nat
  ∧ (∀ host, mTags !! "host" = Some host → host ≠ "" →
       BuildDimensions_range mTags visit !! 0%nat = Some (mkDimension "host" host))
  ∧ ∃ others : DimensionSet,
      BuildDimensions_range mTags visit = take 10 (host_dimension mTags ++ others)
      ∧ (length (host_dimension mTags) ≤ 1)%nat
      ∧ StronglySorted String.le (Dimension_Name <$> others)
      ∧ NoDup (Dimension_Name <$> others)
      ∧ ∀ d, d ∈ others
             ↔ Dimension_Name d ≠ "host"
               ∧ Dimension_Value d ≠ ""
               ∧ mTags !! Dimension_Name d = Some (Dimension_Value d).
Proof.
  intros Hv. rewrite BuildDimensions_range_take.
  set (keys := sort_Strings (filter (fun k => k ≠ "host") visit)).
  split; [|split].
  - rewrite length_take. unfold MaxDimensions. lia.
  - intros host Hhost Hne. unfold host_dimension.
    rewrite Hhost, decide_True by done. done.
  - exists (tag_dimensions mTags keys).
    split; [done|]. split; [apply host_dimension_length|].
    split; [apply tag_dimensions_sorted, sort_Strings_sorted|].
    split.
    + apply tag_dimensions_NoDup. unfold keys.
      rewrite sort_Strings_perm. apply NoDup_filter.
      rewrite Hv. apply NoDup_fst_map_to_list.
    + intros d. rewrite elem_of_tag_dimensions. unfold keys.
      rewrite sort_Strings_perm, list_elem_of_filter, Hv.
      split; [tauto|]. intros (Hn & Hval & Hm). repeat split; try done.
      apply list_elem_of_fmap. exists (Dimension_Name d, Dimension_Value d).
      split; [done|]. by apply elem_of_map_to_list.
Qed.

(** ** ProcessRollup *)

Section Rollup.

Lemma rollup_fill_complete m targets : ∀ pre ds,
  mapM (rollup_dimension m) targets = Some ds →
  rollup_fill m targets (length pre)
    ((Some <$> pre) ++ replicate (length targets) None)
  = ((length pre + length targets)%nat, Some <$> (pre ++ ds)).
Proof.
  induction targets as [|k targets IH]; intros pre ds Hds.
  { injection Hds as <-. simpl.
    by rewrite !app_nil_r, Nat.add_0_r. }
  apply mapM_Some in Hds.
  apply Forall2_cons_inv_l in Hds as (d & ds' & Hd & Hds & ->).
  apply mapM_Some in Hds.
  unfold rollup_dimension in Hd.
  destruct (m !! k) as [v|] eqn:Hk; [|done]. simpl in Hd. simplify_eq.
  cbn [rollup_fill]. rewrite Hk.
  cbn [length]. rewrite replicate_S.
  rewrite insert_app_r_alt by (rewrite length_fmap; lia).
  rewrite length_fmap, Nat.sub_diag. cbn [insert list_insert].
  specialize (IH (pre ++ [mkDimension k v]) ds' Hds).
  rewrite length_app, fmap_app, <- !app_assoc in IH. simpl in IH.
  rewrite Nat.add_1_r in IH. simpl. rewrite IH. f_equal. lia.
Qed.

Lemma rollup_fill_incomplete m targets : ∀ i extra,
  mapM (rollup_dimension m) targets = None →
  ((rollup_fill m targets i extra).1 < i + length targets)%nat.
Proof.
  induction targets as [|k targets IH]; intros i extra Hnone; [done|].
  cbn [rollup_fill length].
  apply mapM_None, Exists_cons in Hnone as [Hk|Hrest].
  - unfold rollup_dimension in Hk.
    destruct (m !! k) as [v|]; [done|]. simpl. lia.
  - apply mapM_None in Hrest.
    destruct (m !! k) as [v|]; [|simpl; lia].
    specialize (IH (S i) (<[i:=Some (mkDimension k v)]> extra) Hrest). lia.
Qed.

Lemma omap_id_Some (l : DimensionSet) : omap id (Some <$> l) = l.
Proof. induction l as [|d l IH]; [done|]. simpl. f_equal. exact IH. Qed.

(** The map that the code fills from the raw dimensions holds, for each key,
    the value of the last dimension with that name. *)
Lemma rawDimensionMap_of_fold ds : ∀ (m : gmap string string) k,
  fold_left (fun m d => <[Dimension_Name d := Dimension_Value d]> m) ds m !! k
  = match raw_value ds k with Some v => Some v | None => m !! k end.
Proof.
  induction ds as [|d ds IH]; intros m k; simpl; [done|].
  rewrite IH. destruct (raw_value ds k); [done|].
  case_decide as Hk.
  - subst k. by rewrite lookup_insert_eq.
  - by rewrite lookup_insert_ne.
Qed.

Lemma rawDimensionMap_of_raw_value rawDimension k :
  rawDimensionMap_of rawDimension !! k = raw_value rawDimension k.
Proof.
  unfold rawDimensionMap_of. rewrite rawDimensionMap_of_fold, lookup_empty.
  by destruct (raw_value rawDimension k).
Qed.

Lemma derived_set_map rawDimension rule :
  derived_set rawDimension rule
  = (ds ← mapM (rollup_dimension (rawDimensionMap_of rawDimension)) (elems_of rule);
     if decide (ds = rawDimension) then None else Some ds).
Proof.
  unfold derived_set. f_equal. apply mapM_ext. intros k.
  unfold rollup_dimension. by rewrite rawDimensionMap_of_raw_value.
Qed.

Lemma raw_value_None rawDimension k :
  raw_value rawDimension k = None ↔ k ∉ Dimension_Name <$> rawDimension.
Proof.
  induction rawDimension as [|d ds IH]; simpl.
  { split; [intros _; apply not_elem_of_nil|done]. }
  rewrite not_elem_of_cons, <- IH.
  destruct (raw_value ds k) as [v|].
  - split; [done|]. by intros [_ ?].
  - case_decide as Hk; split; try done.
    intros [Hne _]. by destruct Hne.
Qed.

Lemma raw_value_Some rawDimension k v :
  raw_value rawDimension k = Some v
  ↔ ∃ before after,
      rawDimension = before ++ mkDimension k v :: after
      ∧ k ∉ Dimension_Name <$> after.
Proof.
  induction rawDimension as [|d ds IH]; simpl.
  { split; [done|]. intros (before & after & Heq & _). by destruct before. }
  destruct (raw_value ds k) as [w|] eqn:Hw.
  - split.
    + intros Hv. apply IH in Hv as (before & after & -> & Hafter).
      by exists (d :: before), after.
    + intros (before & after & Heq & Hafter).
      destruct before as [|d' before]; simpl in Heq; simplify_eq.
      * apply raw_value_None in Hafter. congruence.
      * apply IH. by exists before, after.
  - apply raw_value_None in Hw. split.
    + case_decide as Hk; [|done]. intros [= <-]. subst k.
      exists [], ds. by destruct d.
    + intros (before & after & Heq & Hafter).
      destruct before as [|d' before]; simpl in Heq; simplify_eq.
      * simpl. by rewrite decide_True.
      * destruct Hw. rewrite fmap_app, fmap_cons. simpl.
        apply elem_of_app. right. left.
Qed.

Lemma raw_value_NoDup rawDimension k v :
  NoDup (Dimension_Name <$> rawDimension) →
  raw_value rawDimension k = Some v ↔ mkDimension k v ∈ rawDimension.
Proof.
  intros Hnd. rewrite raw_value_Some. split.
  - intros (before & after & -> & _). apply elem_of_app. right. left.
  - intros Hin. apply list_elem_of_split in Hin as (before & after & ->).
    exists before, after. split; [done|].
    rewrite fmap_app, fmap_cons in Hnd.
    apply NoDup_app in Hnd as (_ & _ & Hnd). by apply NoDup_cons in Hnd as [? _].
Qed.

Lemma ProcessRollup_fold rawDimension rules : ∀ full : list DimensionSet,
  fold_left
    (fun (fullDimensionsList : list DimensionSet) targetDimensions =>
       let targets := elems_of targetDimensions in
       let '(i, extraDimensions) :=
         rollup_fill (rawDimensionMap_of rawDimension) targets 0
           (replicate (length targets) None) in
       if bool_decide (i = length targets)
          && negb (DeepEqual_dimensions rawDimension extraDimensions)
       then fullDimensionsList ++ [omap id extraDimensions]
       else fullDimensionsList)
    rules full
  = full ++ omap (derived_set rawDimension) rules.
Proof.
  induction rules as [|rule rules IH]; intros full; simpl.
  { by rewrite app_nil_r. }
  rewrite IH. rewrite (derived_set_map rawDimension rule).
  destruct (mapM (rollup_dimension (rawDimensionMap_of rawDimension)) (elems_of rule))
    as [ds|] eqn:Hds.
  - pose proof (rollup_fill_complete _ _ [] ds Hds) as Hfill.
    simpl in Hfill. rewrite Hfill. simpl.
    rewrite bool_decide_eq_true_2 by done. simpl.
    unfold DeepEqual_dimensions.
    destruct (decide (ds = rawDimension)) as [->|Hne].
    + rewrite bool_decide_eq_true_2 by done. done.
    + rewrite bool_decide_eq_false_2.
      2:{ intros Heq. apply (inj (fmap Some)) in Heq. done. }
      simpl. rewrite omap_id_Some, <- app_assoc. done.
  - pose proof (rollup_fill_incomplete _ _ 0%nat
                  (replicate (length (elems_of rule)) None) Hds) as Hlt.
    destruct (rollup_fill _ _ _ _) as [i extra]. simpl in Hlt.
    rewrite bool_decide_eq_false_2 by lia. done.
Qed.

Lemma ProcessRollup_spec rules rawDimension :
  ProcessRollup rules rawDimension = rollup_spec rules rawDimension.
Proof. unfold ProcessRollup. by rewrite ProcessRollup_fold. Qed.

Lemma rawDimensionMap_of_elem ds : ∀ (m : gmap string string) k v,
  fold_left (fun m d => <[Dimension_Name d := Dimension_Value d]> m) ds m !! k = Some v →
  m !! k = Some v ∨ mkDimension k v ∈ ds.
Proof.
  induction ds as [|d ds IH]; intros m k v Hk; simpl in Hk; [by left|].
  apply IH in Hk as [Hk|Hk]; [|right; by right].
  destruct (decide (Dimension_Name d = k)) as [<-|Hne].
  - rewrite lookup_insert_eq in Hk. simplify_eq. right. destruct d. left.
  - rewrite lookup_insert_ne in Hk by done. by left.
Qed.

Lemma BuildDimensions_elem mTags d :
  d ∈ BuildDimensions mTags → mTags !! Dimension_Name d = Some (Dimension_Value d).
Proof.
  unfold BuildDimensions. rewrite BuildDimensions_range_take.
  intros Hd. apply elem_of_take in Hd as (i & Hd & _).
  apply list_elem_of_lookup_2, elem_of_app in Hd as [Hd|Hd].
  - unfold host_dimension in Hd.
    destruct (mTags !! "host") as [h|] eqn:Hh; [|by apply elem_of_nil in Hd].
    case_decide; [|by apply elem_of_nil in Hd].
    apply list_elem_of_singleton in Hd. by subst d.
  - by apply elem_of_tag_dimensions in Hd as (_ & Hd & _).
Qed.

End Rollup.

Lemma host_dimension_elem mTags d :
  d ∈ host_dimension mTags →
  Dimension_Name d = "host"
  ∧ Dimension_Value d ≠ ""
  ∧ mTags !! "host" = Some (Dimension_Value d).
Proof.
  unfold host_dimension. intros Hd.
  destruct (mTags !! "host") as [h|] eqn:Hh; [|by apply elem_of_nil in Hd].
  case_decide; [|by apply elem_of_nil in Hd].
  apply list_elem_of_singleton in Hd. by subst d.
Qed.

Lemma BuildDimensions_range_parts (mTags : gmap string string) (visit : list string) :
  range_keys mTags visit →
  ∃ others : DimensionSet,
    BuildDimensions_range mTags visit
    = host_dimension mTags ++ take (MaxDimensions - length (host_dimension mTags)) others
    ∧ StronglySorted String.le (Dimension_Name <$> others)
    ∧ NoDup (Dimension_Name <$> (host_dimension mTags ++ others))
    ∧ ∀ d, d ∈ others
           ↔ Dimension_Name d ≠ "host"
             ∧ Dimension_Value d ≠ ""
             ∧ mTags !! Dimension_Name d = Some (Dimension_Value d).
Proof.
  intros Hv. rewrite BuildDimensions_range_take.
  set (keys := sort_Strings (filter (fun k => k ≠ "host") visit)).
  assert (∀ d, d ∈ tag_dimensions mTags keys
               ↔ Dimension_Name d ≠ "host"
                 ∧ Dimension_Value d ≠ ""
                 ∧ mTags !! Dimension_Name d = Some (Dimension_Value d)) as Hmem.
  { intros d. rewrite elem_of_tag_dimensions. unfold keys.
    rewrite sort_Strings_perm, list_elem_of_filter, Hv.
    split; [tauto|]. intros (Hn & Hval & Hm). repeat split; try done.
    apply list_elem_of_fmap. exists (Dimension_Name d, Dimension_Value d).
    split; [done|]. by apply elem_of_map_to_list. }
  assert (NoDup (Dimension_Name <$> tag_dimensions mTags keys)) as Hnd.
  { apply tag_dimensions_NoDup. unfold keys.
    rewrite sort_Strings_perm. apply NoDup_filter.
    rewrite Hv. apply NoDup_fst_map_to_list. }
  exists (tag_dimensions mTags keys). split_and!.
  - pose proof (host_dimension_length mTags).
    rewrite take_app, (take_ge (host_dimension mTags)); [done|].
    unfold MaxDimensions. lia.
  - apply tag_dimensions_sorted, sort_Strings_sorted.
  - rewrite fmap_app. apply NoDup_app. split_and!; [|..|done].
    + unfold host_dimension. destruct (mTags !! "host"); [case_decide|]; simpl;
        try constructor; try constructor; by apply not_elem_of_nil.
    + intros n Hn1 Hn2.
      apply list_elem_of_fmap in Hn1 as (d1 & -> & Hd1).
      apply list_elem_of_fmap in Hn2 as (d2 & Heq & Hd2).
      apply host_dimension_elem in Hd1 as (Hhost & _).
      apply Hmem in Hd2 as (Hne & _). congruence.
  - done.
Qed.

Lemma BuildDimensions_range_NoDup (mTags : gmap string string) (visit : list string) :
  range_keys mTags visit →
  NoDup (Dimension_Name <$> BuildDimensions_range mTags visit).
Proof.
  intros Hv.
  destruct (BuildDimensions_range_parts mTags visit Hv)
    as (others & -> & _ & Hnd & _).
  eapply sublist_NoDup; [exact Hnd|].
  rewrite !fmap_app. apply sublist_app; [done|].
  rewrite fmap_take. apply sublist_take.
Qed.

Lemma BuildDimensions_range_complete (mTags : gmap string string) (visit : list string)
    (k v : string) :
  range_keys mTags visit →
  (size mTags ≤ 10)%nat →
  mTags !! k = Some v → v ≠ "" →
  mkDimension k v ∈ BuildDimensions_range mTags visit.
Proof.
  intros Hv Hsize Hk Hne.
  destruct (BuildDimensions_range_parts mTags visit Hv)
    as (others & -> & _ & Hnd & Hmem).
  assert (length (host_dimension mTags ++ others) ≤ size mTags)%nat as Hlen.
  { rewrite <- (length_fmap Dimension_Name), <- length_map_to_list,
      <- (length_fmap fst (map_to_list mTags)).
    apply submseteq_length, NoDup_submseteq; [done|].
    intros n Hn. apply list_elem_of_fmap in Hn as (d & -> & Hd).
    assert (mTags !! Dimension_Name d = Some (Dimension_Value d)) as Hd'.
    { apply elem_of_app in Hd as [Hd|Hd].
      - apply host_dimension_elem in Hd as (Hn & _ & Hm). by rewrite Hn.
      - by apply Hmem in Hd as (_ & _ & Hm). }
    apply list_elem_of_fmap. exists (Dimension_Name d, Dimension_Value d).
    split; [done|]. by apply elem_of_map_to_list. }
  rewrite length_app in Hlen.
  rewrite take_ge by (unfold MaxDimensions; lia).
  apply elem_of_app. destruct (decide (k = "host")) as [->|Hhost].
  - left. unfold host_dimension. rewrite Hk, decide_True by done. left.
  - right. apply Hmem. done.
Qed.

(** C5. [ProcessRollup] returns the raw dimension-set first, then, in rule
    order, the derived set of every rule that has one. A rule has a derived
    set exactly when every one of its keys is the name of a raw dimension and
    the set of its keys, in the rule's order, each with its value among the
    raw dimensions, is not the raw set itself; a rule with a key that no raw
    dimension has contributes nothing. The value of a key among the raw
    dimensions is that of the last dimension with this name, so a key that
    some raw dimension has is always found. For the raw dimensions of a tag
    map, names are not repeated, the value of a key is the value of the tag,
    a key that is no tag is absent, and with at most 10 tags every tag with a
    value is found. *)
Theorem ProcessRollup_shape (rules : list StringSlice) (rawDimension : DimensionSet) :
  ProcessRollup rules rawDimension
  = rawDimension :: omap (derived_set rawDimension) rules
  ∧ (∀ rule ds,
       derived_set rawDimension rule = Some ds
       ↔ length ds = length (elems_of rule)
         ∧ (∀ i k, elems_of rule !! i = Some k →
              ∃ v, raw_value rawDimension k = Some v
                   ∧ ds !! i = Some (mkDimension k v))
         ∧ ds ≠ rawDimension)
  ∧ (∀ rule k, k ∈ elems_of rule → k ∉ Dimension_Name <$> rawDimension →
       derived_set rawDimension rule = None)
  ∧ (∀ k, raw_value rawDimension k = None ↔ k ∉ Dimension_Name <$> rawDimension)
  ∧ (∀ k v, raw_value rawDimension k = Some v
            ↔ ∃ before after,
                rawDimension = before ++ mkDimension k v :: after
                ∧ k ∉ Dimension_Name <$> after)
  ∧ (∀ (mTags : gmap string string) k v,
       (raw_value (BuildDimensions mTags) k = Some v
        ↔ mkDimension k v ∈ BuildDimensions mTags)
       ∧ (raw_value (BuildDimensions mTags) k = Some v →
          mTags !! k = Some v ∧ v ≠ "")
       ∧ (mTags !! k = None → raw_value (BuildDimensions mTags) k = None)
       ∧ ((size mTags ≤ 10)%nat → mTags !! k = Some v → v ≠ "" →
          raw_value (BuildDimensions mTags) k = Some v)).
Proof.
  split; [apply ProcessRollup_spec|]. split; [|split; [|split; [|split]]].
  - intros rule ds. rewrite derived_set_map.
    setoid_rewrite <- rawDimensionMap_of_raw_value.
    set (m := rawDimensionMap_of rawDimension).
    split.
    + destruct (mapM (rollup_dimension m) (elems_of rule)) as [ds'|] eqn:Hds; [|done].
      simpl. case_decide as Hraw; [done|]. intros [= ->].
      apply mapM_Some in Hds. split; [|split; [|done]].
      * symmetry. by eapply Forall2_length.
      * intros i k Hk.
        destruct (Forall2_lookup_l _ _ _ _ _ Hds Hk) as (d & Hd & Hf).
        unfold rollup_dimension in Hf.
        destruct (m !! k) as [v|]; [|done]. simpl in Hf. simplify_eq. eauto.
    + intros (Hlen & Hkeys & Hraw).
      assert (mapM (rollup_dimension m) (elems_of rule) = Some ds) as ->.
      { apply mapM_Some, Forall2_same_length_lookup_2; [done|].
        intros i k d Hk Hd. destruct (Hkeys i k Hk) as (v & Hv & Hd').
        unfold rollup_dimension. rewrite Hv. simpl. congruence. }
      simpl. by rewrite decide_False.
  - intros rule k Hk Hnone. apply raw_value_None in Hnone.
    rewrite derived_set_map.
    rewrite (proj2 (mapM_None _ _)); [done|].
    apply Exists_exists. exists k. split; [done|].
    unfold rollup_dimension. by rewrite rawDimensionMap_of_raw_value, Hnone.
  - apply raw_value_None.
  - apply raw_value_Some.
  - intros mTags k v.
    assert (range_keys mTags (map_to_list mTags).*1) as Hv
      by (unfold range_keys; done).
    pose proof (BuildDimensions_range_NoDup mTags _ Hv) as Hnd.
    fold (BuildDimensions mTags) in Hnd.
    assert (∀ w, raw_value (BuildDimensions mTags) k = Some w →
                 mTags !! k = Some w ∧ w ≠ "") as Htag.
    { intros w Hw. apply (raw_value_NoDup _ _ _ Hnd) in Hw.
      split; [by apply BuildDimensions_elem in Hw|].
      unfold BuildDimensions in Hw.
      destruct (BuildDimensions_range_parts mTags _ Hv)
        as (others & Hparts & _ & _ & Hmem).
      rewrite Hparts in Hw. apply elem_of_app in Hw as [Hw|Hw].
      - by apply host_dimension_elem in Hw as (_ & Hne & _).
      - apply elem_of_take in Hw as (i & Hw & _).
        by apply list_elem_of_lookup_2, Hmem in Hw as (_ & Hne & _). }
    split_and!.
    + by apply raw_value_NoDup.
    + apply Htag.
    + intros Hnone.
      destruct (raw_value (BuildDimensions mTags) k) as [w|] eqn:Hw; [|done].
      destruct (Htag w eq_refl) as [Hm _]. congruence.
    + intros Hsize Hk Hne. apply (raw_value_NoDup _ _ _ Hnd).
      by apply BuildDimensions_range_complete.
Qed.

(** ** BuildMetricDatum *)

Section BuilderProperties.
Context `{Externals}.

Lemma fold_left_ext {A B} (f g : A → B → A) l : ∀ a,
  (∀ a x, f a x = g a x) → fold_left f l a = fold_left g l a.
Proof.
  induction l as [|x l IH]; intros a Hfg; simpl; [done|].
  rewrite Hfg. by apply IH.
Qed.

Lemma fold_left_app_bind {A B} (g : A → list B) l : ∀ acc,
  fold_left (fun acc x => acc ++ g x) l acc = acc ++ (l ≫= g).
Proof.
  induction l as [|x l IH]; intros acc; cbn [fold_left].
  { by rewrite app_nil_r. }
  by rewrite IH, bind_cons, app_assoc.
Qed.

Lemma fold_left_snoc_fmap {A B} (g : A → B) l : ∀ acc,
  fold_left (fun acc x => acc ++ [g x]) l acc = acc ++ (g <$> l).
Proof.
  induction l as [|x l IH]; intros acc; simpl.
  { by rewrite app_nil_r. }
  by rewrite IH, <- app_assoc.
Qed.

Lemma BuildMetricDatum_field_product c point hr dl datums k v :
  BuildMetricDatum_field c point hr dl datums k v
  = datums ++ field_product c point hr dl k v.
Proof.
  unfold BuildMetricDatum_field, field_product.
  destruct (field_switch c v) as [[[value distList] unit]|].
  2:{ by rewrite app_nil_r. }
  rewrite <- fold_left_app_bind. apply fold_left_ext.
  intros acc dims. destruct distList as [|dist distList].
  - by rewrite decide_True.
  - rewrite decide_False by done. apply fold_left_snoc_fmap.
Qed.

Lemma BuildMetricDatum_product c point visit :
  BuildMetricDatum c point visit
  = (point_after point,
     visit ≫= fun kv =>
       field_product c (point_after point) (isHighResolution point)
         (dimensionsList_of c point) kv.1 kv.2).
Proof.
  unfold BuildMetricDatum, dimensionsList_of, point_after, isHighResolution.
  set (hr := match telegraf.Tags point !! highResolutionTagKey with
             | Some v => EqualFold v "true" | None => false end).
  assert (match telegraf.Tags point !! highResolutionTagKey with
          | Some v =>
              if EqualFold v "true"
              then (true, telegraf.RemoveTag point highResolutionTagKey)
              else (false, point)
          | None => (false, point)
          end
          = (hr, if hr then telegraf.RemoveTag point highResolutionTagKey else point))
    as ->.
  { unfold hr. destruct (telegraf.Tags point !! highResolutionTagKey) as [v|]; [|done].
    by destruct (EqualFold v "true"). }
  f_equal.
  rewrite <- (app_nil_l (visit ≫= _)), <- fold_left_app_bind.
  apply fold_left_ext. intros acc [k v]. apply BuildMetricDatum_field_product.
Qed.

Lemma field_product_length c point hr dl k v :
  (∀ d M, distribution.Size d ≠ 0%nat → resize d M ≠ []) →
  length (field_product c point hr dl k v) = (length dl * chunk_count c v)%nat.
Proof.
  intros Hresize. unfold field_product.
  assert (∀ (g : DimensionSet → list MetricDatum) n,
            (∀ dims, length (g dims) = n) → length (dl ≫= g) = (length dl * n)%nat)
    as Hbind.
  { intros g n Hg. induction dl as [|dims dl' IH]; [done|].
    rewrite bind_cons, length_app, Hg, IH. simpl. lia. }
  destruct v; simpl; try (rewrite (Hbind _ 1%nat) by done; lia).
  - case_decide as Hsize; [simpl; lia|].
    specialize (Hresize t (MaxValuesPerDatum c) Hsize).
    destruct (resize t (MaxValuesPerDatum c)) as [|dist distList] eqn:Hr; [done|].
    apply Hbind. intros dims. by rewrite length_fmap.
  - lia.
Qed.

End BuilderProperties.

(** ** The sample environment *)

Lemma resize_model_nonempty d M : distribution.Size d ≠ 0%nat → resize_model d M ≠ [].
Proof.
  intros Hsize. unfold resize_model. rewrite decide_False by done.
  case_decide; [done|].
  unfold distribution.Size in *.
  destruct (distribution.Buckets d) as [|b bs]; [done|]. done.
Qed.

(** ** BuildMetricDatum: the claims *)

Lemma point_after_Name point : telegraf.Name (point_after point) = telegraf.Name point.
Proof. unfold point_after. by destruct (isHighResolution point). Qed.

Lemma point_after_Fields point : telegraf.Fields (point_after point) = telegraf.Fields point.
Proof. unfold point_after. by destruct (isHighResolution point). Qed.

Lemma point_after_Time point : telegraf.Time (point_after point) = telegraf.Time point.
Proof. unfold point_after. by destruct (isHighResolution point). Qed.

Lemma dimensionsList_of_nonempty c point : dimensionsList_of c point ≠ [].
Proof. unfold dimensionsList_of. by rewrite ProcessRollup_spec. Qed.

Lemma bind_length_sum {A B} (g : A → list B) (l : list A) :
  length (l ≫= g) = sum_list_with (fun x => length (g x)) l.
Proof.
  induction l as [|x l IH]; [done|].
  rewrite bind_cons, length_app, IH. done.
Qed.

Lemma sum_list_with_const {A} (f : A → nat) (l : list A) (n : nat) :
  (∀ x, x ∈ l → f x = n) → sum_list_with f l = (length l * n)%nat.
Proof.
  induction l as [|x l IH]; intros Hall; [done|].
  simpl. rewrite Hall by left. rewrite IH; [lia|].
  intros y Hy. apply Hall. by right.
Qed.

(** C3. The number of datums is the number of dimension-sets times the sum,
    over the point's fields, of 1 for a scalar field and of the number of
    chunks for a distribution field (0 for one of size 0, and 0 for a value
    of unsupported type); when every field stands for the same number [n] of
    chunks this is count(fields) × count(dimension-sets) × [n]; a distribution
    of size 0 contributes no datum. [resize] is assumed to return at least
    one chunk for a distribution that is not empty. *)
Theorem BuildMetricDatum_count `{Externals} (c : CloudWatch) (point : telegraf.Metric)
    (visit : list (string * FieldValue)) :
  range_entries (telegraf.Fields point) visit →
  (∀ d M, distribution.Size d ≠ 0%nat → resize d M ≠ []) →
  length (BuildMetricDatum c point visit).2
  = (length (dimensionsList_of c point)
     * sum_list_with (fun kv => chunk_count c kv.2)
         (map_to_list (telegraf.Fields point)))%nat
  ∧ (∀ n, (∀ k v, telegraf.Fields point !! k = Some v → chunk_count c v = n) →
       length (BuildMetricDatum c point visit).2
       = (size (telegraf.Fields point) * length (dimensionsList_of c point) * n)%nat)
  ∧ (∀ k t datums, distribution.Size t = 0%nat →
       BuildMetricDatum_field c (point_after point) (isHighResolution point)
         (dimensionsList_of c point) datums k (V_Distribution t) = datums).
Proof.
  intros Hvisit Hresize.
  assert (length (BuildMetricDatum c point visit).2
          = (length (dimensionsList_of c point)
             * sum_list_with (fun kv => chunk_count c kv.2)
                 (map_to_list (telegraf.Fields point)))%nat) as Hcount.
  { rewrite BuildMetricDatum_product. cbn [snd].
    rewrite bind_length_sum. unfold range_entries in Hvisit. rewrite <- Hvisit.
    clear Hvisit. induction visit as [|[k v] visit IH]; simpl; [lia|].
    rewrite IH. rewrite field_product_length by done. lia. }
  split; [done|]. split.
  - intros n Hn. rewrite Hcount.
    assert (sum_list_with (fun kv => chunk_count c kv.2)
              (map_to_list (telegraf.Fields point))
            = (length (map_to_list (telegraf.Fields point)) * n)%nat) as ->.
    { apply sum_list_with_const.
      intros [k v] Hkv. apply elem_of_map_to_list in Hkv. by eapply Hn. }
    rewrite length_map_to_list. lia.
  - intros k t datums Hsize. unfold BuildMetricDatum_field. simpl.
    by rewrite decide_True.
Qed.

Lemma BuildMetricDatum_count_witness :
  range_entries (telegraf.Fields sample_point) (map_to_list (telegraf.Fields sample_point))
  ∧ length (BuildMetricDatum (H:=linux_externals) sample_config sample_point
              (map_to_list (telegraf.Fields sample_point))).2
    = (2 * (1 + 1 + 1 + 2))%nat.
Proof.
  assert (range_entries (telegraf.Fields sample_point)
            (map_to_list (telegraf.Fields sample_point))) as Hvisit.
  { unfold range_entries. reflexivity. }
  split; [exact Hvisit|].
  rewrite (proj1 (BuildMetricDatum_count (H:=linux_externals) sample_config sample_point
                    (map_to_list (telegraf.Fields sample_point))
                    Hvisit resize_model_nonempty)).
  vm_compute. reflexivity.
Defined.

(** C7, as stated, fails: the fields are visited in the order of Go's [range]
    over a map, which is not fixed; two visiting orders of the same fields
    give the same datums in different orders. *)
Lemma BuildMetricDatum_order_counterexample :
  range_entries (telegraf.Fields highres_point) [("a", V_int 1); ("b", V_int 2)]
  ∧ range_entries (telegraf.Fields highres_point) [("b", V_int 2); ("a", V_int 1)]
  ∧ (BuildMetricDatum (H:=linux_externals) sample_config highres_point
       [("a", V_int 1); ("b", V_int 2)]).2
    ≠ (BuildMetricDatum (H:=linux_externals) sample_config highres_point
         [("b", V_int 2); ("a", V_int 1)]).2.
Proof.
  split; [|split].
  - apply (bool_decide_unpack _). vm_compute. exact I.
  - apply (bool_decide_unpack _). vm_compute. exact I.
  - vm_compute. discriminate.
Qed.

(** C7, amended. For a given visiting order of the fields the datum list is
    the cross product in field-then-dimension-then-chunk order, the fields
    taken in that visiting order; two runs on the same point and configuration
    produce the same datums up to a permutation, whatever orders are taken. *)
Theorem BuildMetricDatum_up_to_order `{Externals} (c : CloudWatch)
    (point : telegraf.Metric) (visit1 visit2 : list (string * FieldValue)) :
  range_entries (telegraf.Fields point) visit1 →
  range_entries (telegraf.Fields point) visit2 →
  (BuildMetricDatum c point visit1).2
  = (visit1 ≫= fun kv =>
       field_product c (point_after point) (isHighResolution point)
         (dimensionsList_of c point) kv.1 kv.2)
  ∧ (BuildMetricDatum c point visit1).2 ≡ₚ (BuildMetricDatum c point visit2).2.
Proof.
  unfold range_entries. intros Hv1 Hv2.
  rewrite !BuildMetricDatum_product. cbn [snd].
  split; [done|]. by rewrite Hv1, Hv2.
Qed.

Lemma BuildMetricDatum_up_to_order_witness :
  range_entries (telegraf.Fields highres_point) [("a", V_int 1); ("b", V_int 2)]
  ∧ range_entries (telegraf.Fields highres_point) [("b", V_int 2); ("a", V_int 1)]
  ∧ (BuildMetricDatum (H:=linux_externals) sample_config highres_point
       [("a", V_int 1); ("b", V_int 2)]).2
    ≡ₚ (BuildMetricDatum (H:=linux_externals) sample_config highres_point
          [("b", V_int 2); ("a", V_int 1)]).2.
Proof.
  assert (range_entries (telegraf.Fields highres_point) [("a", V_int 1); ("b", V_int 2)])
    as Hv1 by (apply (bool_decide_unpack _); vm_compute; exact I).
  assert (range_entries (telegraf.Fields highres_point) [("b", V_int 2); ("a", V_int 1)])
    as Hv2 by (apply (bool_decide_unpack _); vm_compute; exact I).
  split; [exact Hv1|]. split; [exact Hv2|].
  exact (proj2 (BuildMetricDatum_up_to_order (H:=linux_externals) sample_config
                  highres_point _ _ Hv1 Hv2)).
Defined.

(** C8, as stated, fails: a point that carries the high-resolution tag with
    the value ["true"] loses that tag. *)
Lemma BuildMetricDatum_mutates_counterexample :
  telegraf.Tags highres_point !! highResolutionTagKey = Some "true"
  ∧ telegraf.Tags
      (BuildMetricDatum (H:=linux_externals) sample_config highres_point
         (map_to_list (telegraf.Fields highres_point))).1
    !! highResolutionTagKey = None
  ∧ (BuildMetricDatum (H:=linux_externals) sample_config highres_point
       (map_to_list (telegraf.Fields highres_point))).1
    ≠ highres_point.
Proof.
  assert (telegraf.Tags
            (BuildMetricDatum (H:=linux_externals) sample_config highres_point
               (map_to_list (telegraf.Fields highres_point))).1
          !! highResolutionTagKey = None) as Hgone by (vm_compute; reflexivity).
  split; [vm_compute; reflexivity|]. split; [exact Hgone|].
  intros Heq. rewrite Heq in Hgone. vm_compute in Hgone. discriminate.
Qed.

(** C8, amended. [BuildMetricDatum] leaves the name, the fields and the
    timestamp of the point unchanged, and every tag other than the reserved
    high-resolution one; the reserved tag is removed exactly when its value is
    ["true"] up to case, and otherwise the point is left as it was. *)
Theorem BuildMetricDatum_frame `{Externals} (c : CloudWatch) (point : telegraf.Metric)
    (visit : list (string * FieldValue)) :
  telegraf.Name (BuildMetricDatum c point visit).1 = telegraf.Name point
  ∧ telegraf.Fields (BuildMetricDatum c point visit).1 = telegraf.Fields point
  ∧ telegraf.Time (BuildMetricDatum c point visit).1 = telegraf.Time point
  ∧ telegraf.Tags (BuildMetricDatum c point visit).1
    = (if isHighResolution point
       then delete highResolutionTagKey (telegraf.Tags point)
       else telegraf.Tags point)
  ∧ (∀ k, k ≠ highResolutionTagKey →
       telegraf.Tags (BuildMetricDatum c point visit).1 !! k = telegraf.Tags point !! k)
  ∧ (isHighResolution point = false → (BuildMetricDatum c point visit).1 = point).
Proof.
  rewrite BuildMetricDatum_product. cbn [fst].
  rewrite point_after_Name, point_after_Fields, point_after_Time.
  unfold point_after. repeat split; try done.
  - by destruct (isHighResolution point).
  - intros k Hk. destruct (isHighResolution point); [|done].
    simpl. by rewrite lookup_delete_ne.
  - by intros ->.
Qed.

(** C10. A boolean field gives, under every dimension-set, a scalar datum
    whose value is exactly 1 when true and 0 when false, and a [time.Time]
    field one whose value is the float64 of its Unix seconds; neither is
    skipped: there is at least one dimension-set, and the datum is in the
    result. *)
Theorem BuildMetricDatum_bool_time `{Externals} (c : CloudWatch) (point : telegraf.Metric)
    (visit : list (string * FieldValue)) (k : string) (v : FieldValue) (value : float64) :
  (k, v) ∈ visit →
  (v = V_bool true ∧ value = float64_one)
  ∨ (v = V_bool false ∧ value = float64_zero)
  ∨ (∃ t, v = V_Time t ∧ value = float64_of_Z (Unix t)) →
  field_switch c v = Some (value, [], "")
  ∧ dimensionsList_of c point ≠ []
  ∧ ∀ dimensions, dimensions ∈ dimensionsList_of c point →
      ∃ datum,
        datum ∈ (BuildMetricDatum c point visit).2
        ∧ datum = scalar_datum (decorateMetricName c (telegraf.Name point) k) dimensions
                    (telegraf.Time point) value
                    (decorateMetricUnit c (telegraf.Name point) k)
                    (isHighResolution point)
        ∧ Value datum = Some value
        ∧ Dimensions datum = dimensions
        ∧ StatisticValues datum = None.
Proof.
  intros Hin Hv.
  assert (field_switch c v = Some (value, [], "")) as Hswitch.
  { destruct Hv as [[-> ->]|[[-> ->]|(t & -> & ->)]]; reflexivity. }
  split; [done|]. split; [apply dimensionsList_of_nonempty|].
  intros dims Hdims. eexists. split; [|split; [reflexivity|]].
  - rewrite BuildMetricDatum_product. cbn [snd].
    apply list_elem_of_bind. exists (k, v). split; [|done].
    unfold field_product. cbn [fst snd]. rewrite Hswitch.
    rewrite point_after_Name, point_after_Time, decide_True by done.
    apply list_elem_of_bind. exists dims. split; [left|done].
  - unfold scalar_datum.
    destruct (decide (decorateMetricUnit c (telegraf.Name point) k ≠ ""));
      destruct (isHighResolution point); done.
Qed.

Lemma BuildMetricDatum_bool_time_witness :
  ("up", V_bool true) ∈ map_to_list (telegraf.Fields sample_point)
  ∧ ∃ datum,
      datum ∈ (BuildMetricDatum (H:=linux_externals) sample_config sample_point
                 (map_to_list (telegraf.Fields sample_point))).2
      ∧ MetricName datum = Some "cpu_up"
      ∧ Value datum = Some float64_one.
Proof.
  assert (("up", V_bool true) ∈ map_to_list (telegraf.Fields sample_point)) as Hin.
  { apply (bool_decide_unpack _). vm_compute. exact I. }
  split; [exact Hin|].
  destruct (BuildMetricDatum_bool_time (H:=linux_externals) sample_config sample_point
              (map_to_list (telegraf.Fields sample_point)) "up" (V_bool true)
              float64_one Hin (or_introl (conj eq_refl eq_refl)))
    as (_ & _ & Hall).
  destruct (Hall [mkDimension "az" "us-east-1a"]) as (datum & Hd & Heq & Hval & _).
  { apply (bool_decide_unpack _). vm_compute. exact I. }
  exists datum. split; [exact Hd|]. split; [|exact Hval].
  rewrite Heq. vm_compute. reflexivity.
Defined.

(** ** The batch accumulator *)

Section BatchingProperties.
Context `{Externals}.

Lemma batch_size_snoc K partition datum :
  batch_size K (partition ++ [datum]) = int_wrap (batch_size K partition + payload datum).
Proof. unfold batch_size. by rewrite fold_left_app. Qed.

Lemma append_datum_inv K M now c datum :
  push_inv K M c → push_inv K M (append_datum now c datum).
Proof.
  intros (HM & HbM & HK & H1 & Hlen & Hsize & Hbelow & Hcur & Hchan).
  assert (batch_ok K M (Partition (metricDatumBatch c) ++ [datum])) as Hnew.
  { split; [|split].
    - rewrite length_app. simpl. lia.
    - rewrite length_app. simpl. lia.
    - intros HKlt. rewrite removelast_last, <- Hsize. by apply Hbelow. }
  unfold append_datum.
  destruct (isFull _) eqn:Hfull.
  - unfold push_inv. simpl. split_and!; try done; try lia.
    intros batch Hb. apply elem_of_app in Hb as [Hb|Hb]; [by apply Hchan|].
    apply list_elem_of_singleton in Hb. by subst batch.
  - unfold isFull in Hfull. simpl in Hfull.
    apply orb_false_iff in Hfull as [Hcount Hpay].
    apply bool_decide_eq_false in Hcount. apply bool_decide_eq_false in Hpay.
    unfold push_inv. simpl. split_and!; try done; try lia.
    by rewrite batch_size_snoc, Hsize.
Qed.

Lemma append_datums_inv K M now datums : ∀ c,
  push_inv K M c → push_inv K M (fold_left (append_datum now) datums c).
Proof.
  induction datums as [|d datums IH]; intros c Hc; [done|].
  simpl. by apply IH, append_datum_inv.
Qed.

Lemma pushMetricDatum_inv K M events : ∀ c,
  push_inv K M c → push_inv K M (pushMetricDatum events c).
Proof.
  induction events as [|[now ev] events IH]; intros c Hc; [done|].
  destruct ev as [point visit| |]; cbn [pushMetricDatum]; [| |done].
  - by apply IH, append_datums_inv.
  - destruct (timeToPublish _ _ _) eqn:Htime; [|by apply IH].
    apply IH.
    destruct Hc as (HM & HbM & HK & H1 & Hlen & Hsize & Hbelow & Hcur & Hchan).
    unfold timeToPublish in Htime. apply andb_true_iff in Htime as [Hne _].
    apply bool_decide_eq_true in Hne.
    unfold push_inv. simpl. split_and!; try done; try lia.
    intros batch Hb. apply elem_of_app in Hb as [Hb|Hb]; [by apply Hchan|].
    apply list_elem_of_singleton in Hb. subst batch. apply Hcur.
    destruct (Partition (metricDatumBatch c)); [simpl in Hne; lia|done].
Qed.

Lemma startRoutines_inv now c0 c :
  startRoutines now c0 = Some c →
  push_inv (perRequestConstSize (metricDatumBatch c)) (MaxDatumsPerCall c) c
  ∧ MaxDatumsPerCall c
    = (if decide (MaxDatumsPerCall c0 = 0) then defaultMaxDatumsPerCall
       else MaxDatumsPerCall c0).
Proof.
  unfold startRoutines, newMetricDatumBatch.
  set (M := if decide (MaxDatumsPerCall c0 = 0) then defaultMaxDatumsPerCall
            else MaxDatumsPerCall c0).
  assert (M ≠ 0) as HM0.
  { unfold M, defaultMaxDatumsPerCall. case_decide; lia. }
  destruct (decide (M < 0)) as [Hneg|Hneg]; [by simpl|]. simpl. intros [= <-]. simpl.
  split; [|done].
  unfold push_inv. simpl. split_and!; try done; try lia.
  intros batch Hb. by apply elem_of_nil in Hb.
Qed.

End BatchingProperties.

(** C1, as stated, fails: the batch is flushed after the append that fills
    it, so a batch sent because of its size has a size estimate at or above
    the ceiling, here above it. *)
Lemma pushMetricDatum_size_counterexample :
  ∃ c,
    startRoutines (H:=linux_externals) 0 sample_config = Some c
    ∧ Exists
        (fun batch =>
           bottomLinePayloadSizeToPublish
           < batch_size (H:=linux_externals) (perRequestConstSize (metricDatumBatch c)) batch)
        (datumBatchChan
           (pushMetricDatum (H:=linux_externals)
              [(1, recv_metricChan long_point (map_to_list (telegraf.Fields long_point)))]
              c)).
Proof.
  eexists. split; [reflexivity|].
  apply (bool_decide_unpack _). vm_compute. exact I.
Qed.

(** C1, amended. Once [startRoutines] has set the plugin up, every batch
    placed on the channel has at least 1 and at most [MaxDatumsPerCall] datums
    ([MaxDatumsPerCall] being 20 when it is configured as 0), and its size
    estimate before its last datum was appended is below the payload ceiling,
    provided the per-request constant is. *)
Theorem pushMetricDatum_batches_bounded `{Externals} (now : Z) (c0 c : CloudWatch)
    (events : list (Z * Received)) (batch : list MetricDatum) :
  startRoutines now c0 = Some c →
  batch ∈ datumBatchChan (pushMetricDatum events c) →
  (1 ≤ length batch)%nat
  ∧ Z.of_nat (length batch) ≤ MaxDatumsPerCall c
  ∧ MaxDatumsPerCall c
    = (if decide (MaxDatumsPerCall c0 = 0) then defaultMaxDatumsPerCall
       else MaxDatumsPerCall c0)
  ∧ (perRequestConstSize (metricDatumBatch c) < bottomLinePayloadSizeToPublish →
     batch_size (perRequestConstSize (metricDatumBatch c)) (removelast batch)
     < bottomLinePayloadSizeToPublish).
Proof.
  intros Hstart Hbatch.
  apply startRoutines_inv in Hstart as [Hinv HM].
  apply (pushMetricDatum_inv _ _ events) in Hinv.
  destruct Hinv as (_ & _ & _ & _ & _ & _ & _ & _ & Hchan).
  destruct (Hchan batch Hbatch) as (Hlen1 & Hlen2 & Hsize).
  split_and!; done.
Qed.

Lemma pushMetricDatum_batches_bounded_witness :
  startRoutines (H:=linux_externals) 0 sample_config = Some started_config
  ∧ hd [] (datumBatchChan (pushMetricDatum (H:=linux_externals) two_ticks started_config))
    ∈ datumBatchChan (pushMetricDatum (H:=linux_externals) two_ticks started_config)
  ∧ (1 ≤ length (hd [] (datumBatchChan
                          (pushMetricDatum (H:=linux_externals) two_ticks
                             started_config))))%nat
  ∧ Z.of_nat (length (hd [] (datumBatchChan
                               (pushMetricDatum (H:=linux_externals) two_ticks
                                  started_config)))) ≤ 20.
Proof.
  assert (startRoutines (H:=linux_externals) 0 sample_config = Some started_config)
    as Hstart by (vm_compute; reflexivity).
  assert (hd [] (datumBatchChan
                   (pushMetricDatum (H:=linux_externals) two_ticks started_config))
          ∈ datumBatchChan (pushMetricDatum (H:=linux_externals) two_ticks started_config))
    as Hin by (apply (bool_decide_unpack _); vm_compute; exact I).
  split; [exact Hstart|]. split; [exact Hin|].
  destruct (pushMetricDatum_batches_bounded (H:=linux_externals) 0 sample_config
              started_config two_ticks _ Hstart Hin) as (H1 & H2 & H3 & _).
  split; [exact H1|].
  rewrite H3 in H2. exact H2.
Defined.

(** ** backoffSleep and WriteToCloudWatch *)

Section RetryProperties.
Context `{Externals}.

Lemma backoffSleep_eq c :
  backoffSleep c = (set_retries c (int_wrap (retries c + 1)), sleepDuration_at (retries c)).
Proof. reflexivity. Qed.

Lemma set_retries_same c : set_retries c (retries c) = c.
Proof. by destruct c. Qed.

Lemma loop_retried svc n : ∀ remaining i c err trace,
  (∀ j, (j < n)%nat → ∃ e, svc (i + j)%nat = Some e ∧ retried e) →
  WriteToCloudWatch_loop svc (n + remaining) i c err trace
  = WriteToCloudWatch_loop svc remaining (i + n)
      (set_retries c (bump (retries c) n))
      (match n with O => err | S m => svc (i + m)%nat end)
      (trace ++ retry_trace (retries c) n).
Proof.
  induction n as [|n IH]; intros remaining i c err trace Hfail.
  { simpl. by rewrite Nat.add_0_r, app_nil_r, set_retries_same. }
  destruct (Hfail 0%nat ltac:(lia)) as (e & He & Hre).
  rewrite Nat.add_0_r in He.
  assert (WriteToCloudWatch_loop svc (S n + remaining) i c err trace
          = WriteToCloudWatch_loop svc (n + remaining) (S i)
              (set_retries c (int_wrap (retries c + 1))) (svc i)
              ((trace ++ [do_PutMetricData]) ++ [do_Sleep (sleepDuration_at (retries c))]))
    as ->.
  { cbn [Nat.add WriteToCloudWatch_loop]. rewrite He.
    destruct e as [code|]; [|done].
    simpl in Hre. by rewrite decide_True. }
  rewrite IH.
  2:{ intros j Hj. replace (S i + j)%nat with (i + S j)%nat by lia.
      apply Hfail. lia. }
  simpl. rewrite <- !app_assoc. simpl.
  replace (S (i + n)) with (i + S n)%nat by lia.
  f_equal. destruct n as [|m]; [by rewrite Nat.add_0_r|].
  f_equal. lia.
Qed.

Lemma bump_snoc r n : int_wrap (bump r n + 1) = bump (int_wrap (r + 1)) n.
Proof. revert r. induction n as [|n IH]; intros r; [done|]. simpl. apply IH. Qed.

Lemma attempts_retry_trace r n : attempts (retry_trace r n) = n.
Proof.
  revert r. induction n as [|n IH]; intros r; [done|].
  unfold attempts in *. cbn [retry_trace].
  rewrite filter_cons_True by done.
  rewrite filter_cons_False by done.
  cbn [length]. by rewrite IH.
Qed.

Lemma sleeps_retry_trace r n : sleeps (retry_trace r n) = backoff_schedule r n.
Proof.
  revert r. induction n as [|n IH]; intros r; [done|].
  unfold sleeps in *. simpl. by rewrite IH.
Qed.

Lemma attempts_app t1 t2 : attempts (t1 ++ t2) = (attempts t1 + attempts t2)%nat.
Proof. unfold attempts. by rewrite filter_app, length_app. Qed.

Lemma sleeps_app t1 t2 : sleeps (t1 ++ t2) = sleeps t1 ++ sleeps t2.
Proof. unfold sleeps. by rewrite omap_app. Qed.

Lemma retry_trace_snoc r n :
  retry_trace r (S n)
  = retry_trace r n ++ [do_PutMetricData; do_Sleep (sleepDuration_at (bump r n))].
Proof.
  revert r. induction n as [|n IH]; intros r; [done|].
  change (retry_trace r (S (S n)))
    with (do_PutMetricData :: do_Sleep (sleepDuration_at r)
          :: retry_trace (int_wrap (r + 1)) (S n)).
  rewrite IH. done.
Qed.

(** Every attempt fails with an error that is retried: the budget is used up. *)
Lemma WriteToCloudWatch_exhausted svc c :
  (∀ i, (i < 5)%nat → ∃ e, svc i = Some e ∧ retried e) →
  ∃ e, svc 4%nat = Some e
       ∧ WriteToCloudWatch svc c
         = (set_retries c (bump (retries c) 5),
            retry_trace (retries c) 5 ++ [do_log_failure e]).
Proof.
  intros Hfail. destruct (Hfail 4%nat ltac:(lia)) as (e & He & _).
  exists e. split; [done|].
  unfold WriteToCloudWatch.
  change (Z.to_nat defaultRetryCount) with (5 + 0)%nat.
  rewrite loop_retried by (intros j Hj; by apply Hfail).
  cbn [WriteToCloudWatch_loop Nat.add]. rewrite He. done.
Qed.

(** [n < 5] retried failures, then an error that is not retried. *)
Lemma WriteToCloudWatch_gives_up svc c n e :
  (n < 5)%nat →
  (∀ i, (i < n)%nat → ∃ e, svc i = Some e ∧ retried e) →
  svc n = Some e → ¬ retried e →
  WriteToCloudWatch svc c
  = (set_retries c (bump (retries c) (S n)),
     retry_trace (retries c) (S n) ++ [do_log_failure e]).
Proof.
  intros Hn Hfail He Hnot.
  unfold WriteToCloudWatch.
  replace (Z.to_nat defaultRetryCount) with (n + S (4 - n))%nat
    by (change (Z.to_nat defaultRetryCount) with 5%nat; lia).
  rewrite loop_retried by (intros j Hj; by apply Hfail).
  cbn [WriteToCloudWatch_loop Nat.add]. rewrite He.
  destruct e as [code|]; [|by destruct Hnot].
  simpl in Hnot. rewrite decide_False by done.
  rewrite backoffSleep_eq, retry_trace_snoc. cbn [retries set_retries].
  rewrite <- !app_assoc. simpl.
  f_equal. unfold set_retries. cbn. f_equal. apply bump_snoc.
Qed.

(** [n < 5] retried failures, then a success. *)
Lemma WriteToCloudWatch_succeeds svc c n :
  (n < 5)%nat →
  (∀ i, (i < n)%nat → ∃ e, svc i = Some e ∧ retried e) →
  svc n = None →
  WriteToCloudWatch svc c
  = (set_retries c 0, retry_trace (retries c) n ++ [do_PutMetricData]).
Proof.
  intros Hn Hfail Hok.
  unfold WriteToCloudWatch.
  replace (Z.to_nat defaultRetryCount) with (n + S (4 - n))%nat
    by (change (Z.to_nat defaultRetryCount) with 5%nat; lia).
  rewrite loop_retried by (intros j Hj; by apply Hfail).
  cbn [WriteToCloudWatch_loop Nat.add]. rewrite Hok. done.
Qed.

End RetryProperties.


(** What the loop does on failures. With [n] failures in a row, from the
    first attempt, whose error is a throttling or internal-fault code or
    cannot be cast to [awserr.Error], followed, if [n < 5], by an error with
    any other code, the task makes [min 5 (n + 1)] attempts, sleeps after each
    of them on the schedule of [backoffSleep], and ends by logging the last
    error. *)
Theorem WriteToCloudWatch_retry_policy `{Externals}
    (svc : nat → option PutMetricDataError) (c : CloudWatch) (n : nat) :
  (n ≤ 5)%nat →
  (∀ i, (i < n)%nat → ∃ e, svc i = Some e ∧ retried e) →
  (n = 5%nat ∨ ∃ e, svc n = Some e ∧ ¬ retried e) →
  attempts (WriteToCloudWatch svc c).2 = (5 `min` S n)%nat
  ∧ sleeps (WriteToCloudWatch svc c).2 = backoff_schedule (retries c) (5 `min` S n)
  ∧ retries (WriteToCloudWatch svc c).1 = bump (retries c) (5 `min` S n)
  ∧ ∃ e, last (WriteToCloudWatch svc c).2 = Some (do_log_failure e)
         ∧ svc (4 `min` n)%nat = Some e.
Proof.
  intros Hn Hfail Hend.
  assert (∀ r m e,
            attempts (retry_trace r m ++ [do_log_failure e]) = m
            ∧ sleeps (retry_trace r m ++ [do_log_failure e]) = backoff_schedule r m
            ∧ last (retry_trace r m ++ [do_log_failure e]) = Some (do_log_failure e))
    as Htrace.
  { intros r m e. rewrite attempts_app, sleeps_app, attempts_retry_trace,
      sleeps_retry_trace, last_snoc.
    split_and!; [unfold attempts; simpl; lia|by rewrite app_nil_r|done]. }
  destruct (decide (n = 5%nat)) as [->|Hn5].
  - destruct (WriteToCloudWatch_exhausted svc c Hfail) as (e & He & ->).
    cbn [fst snd]. destruct (Htrace (retries c) 5%nat e) as (Ha & Hs & Hl).
    split_and!; [done..|]. exists e. done.
  - destruct Hend as [?|(e & He & Hnot)]; [done|].
    rewrite (WriteToCloudWatch_gives_up svc c n e) by (done || lia).
    cbn [fst snd]. destruct (Htrace (retries c) (S n) e) as (Ha & Hs & Hl).
    replace (5 `min` S n)%nat with (S n) by lia.
    replace (4 `min` n)%nat with n by lia.
    split_and!; [done..|]. exists e. done.
Qed.

Lemma WriteToCloudWatch_retry_policy_witness :
  attempts (WriteToCloudWatch (H:=linux_externals) throttled_twice sample_config).2
  = 3%nat
  ∧ sleeps (WriteToCloudWatch (H:=linux_externals) throttled_twice sample_config).2
    = [200 * Millisecond; 400 * Millisecond; 800 * Millisecond].
Proof.
  assert (∀ i, (i < 2)%nat →
            ∃ e, throttled_twice i = Some e ∧ retried (H:=linux_externals) e) as Hfail.
  { intros [|[|i]] Hi; [| |lia].
    - exists other_error. split; [reflexivity|exact I].
    - exists (awserr_Error "LimitExceeded"). split; [reflexivity|left; reflexivity]. }
  assert (2%nat = 5%nat
          ∨ ∃ e, throttled_twice 2 = Some e ∧ ¬ retried (H:=linux_externals) e) as Hend.
  { right. exists (awserr_Error "InvalidParameterValue"). split; [reflexivity|].
    intros [Hc|Hc]; vm_compute in Hc; discriminate. }
  destruct (WriteToCloudWatch_retry_policy (H:=linux_externals) throttled_twice
              sample_config 2%nat ltac:(lia) Hfail Hend) as (Ha & Hs & _).
  split; [exact Ha|]. rewrite Hs. vm_compute. reflexivity.
Defined.

(** C6. With the counter between 0 and 5, [backoffSleep] sleeps
    200 ms × 2^counter and increments the counter; with the counter at 6 or
    more it sleeps the fixed 60 seconds; and when a send succeeds,
    [WriteToCloudWatch] leaves the counter at 0. *)
Theorem backoff_policy `{Externals} (c : CloudWatch) :
  (0 ≤ retries c ≤ 5 →
   backoffSleep c
   = (set_retries c (retries c + 1), Millisecond * (backoffRetryBase * 2 ^ retries c)))
  ∧ (6 ≤ retries c →
     (backoffSleep c).2 = Millisecond * (60 * 1000)
     ∧ retries (backoffSleep c).1 = int_wrap (retries c + 1))
  ∧ (∀ (svc : nat → option PutMetricDataError) (n : nat),
       (n < 5)%nat →
       (∀ i, (i < n)%nat → ∃ e, svc i = Some e ∧ retried e) →
       svc n = None →
       retries (WriteToCloudWatch svc c).1 = 0
       ∧ (WriteToCloudWatch svc c).2 = retry_trace (retries c) n ++ [do_PutMetricData]).
Proof.
  split_and!.
  - intros Hr. rewrite backoffSleep_eq. unfold sleepDuration_at, backoff_pow.
    rewrite !decide_True by lia. f_equal. f_equal.
    unfold int_wrap. rewrite Z.mod_small; lia.
  - intros Hr. rewrite backoffSleep_eq. cbn [fst snd retries set_retries].
    unfold sleepDuration_at. by rewrite decide_False by lia.
  - intros svc n Hn Hfail Hok.
    by rewrite (WriteToCloudWatch_succeeds svc c n).
Qed.

Lemma backoff_policy_witness :
  backoffSleep sample_config = (set_retries sample_config 1, 200 * Millisecond)
  ∧ (backoffSleep (set_retries sample_config 6)).2 = 60 * Second
  ∧ retries (WriteToCloudWatch (H:=linux_externals) throttled_then_ok
               (set_retries sample_config 3)).1 = 0
  ∧ sleeps (WriteToCloudWatch (H:=linux_externals) throttled_then_ok
              (set_retries sample_config 3)).2
    = [1600 * Millisecond; 3200 * Millisecond; 6400 * Millisecond].
Proof.
  split_and!.
  - rewrite (proj1 (backoff_policy (H:=linux_externals) sample_config)
               ltac:(vm_compute; split; discriminate)).
    vm_compute. reflexivity.
  - rewrite (proj1 (proj1 (proj2 (backoff_policy (H:=linux_externals)
                                    (set_retries sample_config 6)))
                      ltac:(vm_compute; discriminate))).
    vm_compute. reflexivity.
  - apply (proj2 (proj2 (backoff_policy (H:=linux_externals)
                           (set_retries sample_config 3))) throttled_then_ok 3%nat);
      [lia| |reflexivity].
    intros [|[|[|i]]] Hi; try lia;
      (exists (awserr_Error "LimitExceeded"); split; [reflexivity|left; reflexivity]).
  - vm_compute. reflexivity.
Defined.

Lemma BuildDimensions_shape_witness :
  range_keys many_tags (map_to_list many_tags).*1
  ∧ (length (BuildDimensions_range many_tags (map_to_list many_tags).*1) ≤ 10)%nat
  ∧ BuildDimensions_range many_tags (map_to_list many_tags).*1 !! 0%nat
    = Some (mkDimension "host" "h1").
Proof.
  assert (range_keys many_tags (map_to_list many_tags).*1) as Hv.
  { unfold range_keys. reflexivity. }
  split; [exact Hv|].
  destruct (BuildDimensions_shape many_tags _ Hv) as (Hlen & Hhost & _).
  split; [exact Hlen|].
  apply Hhost; [vm_compute; reflexivity|discriminate].
Defined.

Example BuildDimensions_many_tags :
  BuildDimensions many_tags
  = [mkDimension "host" "h1"; mkDimension "t01" "a"; mkDimension "t02" "b";
     mkDimension "t03" "c"; mkDimension "t04" "d"; mkDimension "t05" "e";
     mkDimension "t06" "f"; mkDimension "t07" "g"; mkDimension "t08" "h";
     mkDimension "t09" "i"].
Proof. vm_compute. reflexivity. Qed.

(** * Further properties *)

(** ** GetUniqueRollupList *)

Lemma filter_all {A} (P : A → Prop) `{∀ x, Decision (P x)} (l : list A) :
  (∀ x, x ∈ l → P x) → filter P l = l.
Proof.
  induction l as [|x l IH]; intros Hall; [done|].
  rewrite filter_cons_True by (apply Hall; left).
  f_equal. apply IH. intros y Hy. apply Hall. by right.
Qed.

Lemma first_seen_NoDup (l : list StringSlice) : NoDup l → first_seen l = l.
Proof.
  induction 1 as [|x l Hx Hnd IH]; [done|].
  simpl. rewrite IH. f_equal. apply filter_all.
  intros y Hy ->. done.
Qed.

Lemma first_seen_sublist (l : list StringSlice) : first_seen l `sublist_of` l.
Proof.
  induction l as [|x l IH]; [done|].
  simpl. apply sublist_skip. etrans; [apply sublist_filter|done].
Qed.

(** X1. Deduplicating twice is deduplicating once. *)
Theorem GetUniqueRollupList_idempotent (inputLists : list StringSlice) :
  GetUniqueRollupList (GetUniqueRollupList inputLists) = GetUniqueRollupList inputLists.
Proof.
  rewrite !GetUniqueRollupList_first_seen.
  apply first_seen_NoDup, NoDup_first_seen.
Qed.

(** X2. A list in which no rule occurs twice is returned as it is. *)
Theorem GetUniqueRollupList_keeps_distinct (inputLists : list StringSlice) :
  NoDup inputLists → GetUniqueRollupList inputLists = inputLists.
Proof. intros Hnd. rewrite GetUniqueRollupList_first_seen. by apply first_seen_NoDup. Qed.

Lemma GetUniqueRollupList_keeps_distinct_witness :
  NoDup [Slice ["host"]; Slice ["host"; "ImageId"]; Slice []]
  ∧ GetUniqueRollupList [Slice ["host"]; Slice ["host"; "ImageId"]; Slice []]
    = [Slice ["host"]; Slice ["host"; "ImageId"]; Slice []].
Proof.
  assert (NoDup [Slice ["host"]; Slice ["host"; "ImageId"]; Slice []]) as Hnd.
  { apply (bool_decide_unpack _). vm_compute. exact I. }
  split; [exact Hnd|].
  exact (GetUniqueRollupList_keeps_distinct _ Hnd).
Defined.

(** X3. The result is the input with some rules left out: the rules kept
    stay in the order they had, and there are no more of them than before. *)
Theorem GetUniqueRollupList_sublist (inputLists : list StringSlice) :
  GetUniqueRollupList inputLists `sublist_of` inputLists
  ∧ (length (GetUniqueRollupList inputLists) ≤ length inputLists)%nat.
Proof.
  rewrite GetUniqueRollupList_first_seen.
  split; [apply first_seen_sublist|apply sublist_length, first_seen_sublist].
Qed.

(** ** BuildDimensions *)

(** X4. The dimensions do not depend on the order in which the tag map is
    visited. *)
Theorem BuildDimensions_order_independent (mTags : gmap string string)
    (visit1 visit2 : list string) :
  range_keys mTags visit1 → range_keys mTags visit2 →
  BuildDimensions_range mTags visit1 = BuildDimensions_range mTags visit2.
Proof.
  unfold range_keys. intros Hv1 Hv2.
  apply BuildDimensions_range_order. by rewrite Hv1, Hv2.
Qed.

Lemma BuildDimensions_order_independent_witness :
  range_keys many_tags (map_to_list many_tags).*1
  ∧ range_keys many_tags (reverse (map_to_list many_tags).*1)
  ∧ BuildDimensions_range many_tags (map_to_list many_tags).*1
    = BuildDimensions_range many_tags (reverse (map_to_list many_tags).*1).
Proof.
  assert (range_keys many_tags (map_to_list many_tags).*1) as Hv1
    by (apply (bool_decide_unpack _); vm_compute; exact I).
  assert (range_keys many_tags (reverse (map_to_list many_tags).*1)) as Hv2
    by (apply (bool_decide_unpack _); vm_compute; exact I).
  split; [exact Hv1|]. split; [exact Hv2|].
  exact (BuildDimensions_order_independent many_tags _ _ Hv1 Hv2).
Defined.

(** X5. The dimensions have pairwise distinct names, none has an empty
    value, and each one is a tag of the map with the value it has there. *)
Theorem BuildDimensions_sound (mTags : gmap string string) (visit : list string) :
  range_keys mTags visit →
  NoDup (Dimension_Name <$> BuildDimensions_range mTags visit)
  ∧ ∀ d, d ∈ BuildDimensions_range mTags visit →
         Dimension_Value d ≠ ""
         ∧ mTags !! Dimension_Name d = Some (Dimension_Value d).
Proof.
  intros Hv.
  destruct (BuildDimensions_range_parts mTags visit Hv)
    as (others & Hparts & _ & Hnd & Hmem).
  rewrite Hparts.
  split.
  - rewrite <- Hparts. by apply BuildDimensions_range_NoDup.
  - intros d Hd. apply elem_of_app in Hd as [Hd|Hd].
    + apply host_dimension_elem in Hd as (Hn & Hval & Hm). by rewrite Hn.
    + apply elem_of_take in Hd as (i & Hd & _).
      apply list_elem_of_lookup_2, Hmem in Hd. tauto.
Qed.

Lemma BuildDimensions_sound_witness :
  range_keys many_tags (map_to_list many_tags).*1
  ∧ NoDup (Dimension_Name <$> BuildDimensions_range many_tags (map_to_list many_tags).*1).
Proof.
  assert (range_keys many_tags (map_to_list many_tags).*1) as Hv
    by (apply (bool_decide_unpack _); vm_compute; exact I).
  split; [exact Hv|].
  exact (proj1 (BuildDimensions_sound many_tags _ Hv)).
Defined.

(** X6. When the map has at most 10 tags, nothing is cut: every tag with a
    non-empty value is a dimension. *)
Theorem BuildDimensions_complete (mTags : gmap string string) (visit : list string)
    (k v : string) :
  range_keys mTags visit →
  (size mTags ≤ 10)%nat →
  mTags !! k = Some v → v ≠ "" →
  mkDimension k v ∈ BuildDimensions_range mTags visit.
Proof. apply BuildDimensions_range_complete. Qed.

Lemma BuildDimensions_complete_witness :
  range_keys (telegraf.Tags sample_point) (map_to_list (telegraf.Tags sample_point)).*1
  ∧ mkDimension "az" "us-east-1a"
    ∈ BuildDimensions_range (telegraf.Tags sample_point)
        (map_to_list (telegraf.Tags sample_point)).*1.
Proof.
  assert (range_keys (telegraf.Tags sample_point)
            (map_to_list (telegraf.Tags sample_point)).*1) as Hv
    by (apply (bool_decide_unpack _); vm_compute; exact I).
  split; [exact Hv|].
  apply (BuildDimensions_complete _ _ "az" "us-east-1a" Hv).
  - vm_compute. lia.
  - vm_compute. reflexivity.
  - discriminate.
Defined.

(** X7. What the cap leaves out comes last in the alphabet: when a tag other
    than [host], with a non-empty value, is not among the dimensions, there
    are exactly 10 dimensions, and every one of them other than [host] has a
    name that is not after the name of that tag. *)
Theorem BuildDimensions_cut (mTags : gmap string string) (visit : list string)
    (k v : string) :
  range_keys mTags visit →
  mTags !! k = Some v → v ≠ "" → k ≠ "host" →
  mkDimension k v ∉ BuildDimensions_range mTags visit →
  length (BuildDimensions_range mTags visit) = 10%nat
  ∧ ∀ d, d ∈ BuildDimensions_range mTags visit →
         Dimension_Name d ≠ "host" → String.le (Dimension_Name d) k.
Proof.
  intros Hv Hk Hne Hhost Hout.
  destruct (BuildDimensions_range_parts mTags visit Hv)
    as (others & Heq & Hsorted & _ & Hmem).
  rewrite Heq in *.
  set (n := (MaxDimensions - length (host_dimension mTags))%nat) in *.
  assert (mkDimension k v ∈ drop n others) as Hdrop.
  { assert (mkDimension k v ∈ others) as Hin by (by apply Hmem).
    rewrite <- (take_drop n others) in Hin.
    apply elem_of_app in Hin as [Hin|Hin]; [|done].
    exfalso. apply Hout, elem_of_app. by right. }
  assert (n < length others)%nat as Hn.
  { destruct (decide (n < length others)%nat) as [|Hge]; [done|].
    rewrite drop_ge in Hdrop by lia. by apply elem_of_nil in Hdrop. }
  pose proof (host_dimension_length mTags) as Hh.
  split.
  - rewrite length_app, length_take. unfold n, MaxDimensions in *. lia.
  - intros d Hd Hdn. apply elem_of_app in Hd as [Hd|Hd].
    { by apply host_dimension_elem in Hd as (? & _). }
    rewrite <- (take_drop n others), fmap_app in Hsorted.
    apply StronglySorted_app in Hsorted as (Hle & _ & _).
    apply (Hle (Dimension_Name d) (Dimension_Name (mkDimension k v)));
      by apply list_elem_of_fmap_2.
Qed.

Lemma BuildDimensions_cut_witness :
  range_keys many_tags (map_to_list many_tags).*1
  ∧ (mkDimension "t11" "k"
     ∉ BuildDimensions_range many_tags (map_to_list many_tags).*1)
  ∧ length (BuildDimensions_range many_tags (map_to_list many_tags).*1) = 10%nat.
Proof.
  assert (range_keys many_tags (map_to_list many_tags).*1) as Hv
    by (apply (bool_decide_unpack _); vm_compute; exact I).
  assert (mkDimension "t11" "k"
          ∉ BuildDimensions_range many_tags (map_to_list many_tags).*1) as Hout
    by (apply (bool_decide_unpack _); vm_compute; exact I).
  split; [exact Hv|]. split; [exact Hout|].
  refine (proj1 (BuildDimensions_cut many_tags _ "t11" "k" Hv _ _ _ Hout)).
  - vm_compute. reflexivity.
  - discriminate.
  - discriminate.
Defined.

(** ** ProcessRollup *)

Lemma rawDimensionMap_of_lookup (rawDimension : DimensionSet) k v :
  rawDimensionMap_of rawDimension !! k = Some v → mkDimension k v ∈ rawDimension.
Proof.
  unfold rawDimensionMap_of. intros Hk.
  apply rawDimensionMap_of_elem in Hk as [Hk|Hk]; [|done].
  by rewrite lookup_empty in Hk.
Qed.

Lemma derived_set_Some (rawDimension : DimensionSet) rule ds :
  derived_set rawDimension rule = Some ds →
  Dimension_Name <$> ds = elems_of rule
  ∧ ds ≠ rawDimension
  ∧ ∀ d, d ∈ ds → d ∈ rawDimension.
Proof.
  rewrite derived_set_map.
  destruct (mapM _ (elems_of rule)) as [ds'|] eqn:Hds; [|done].
  simpl. case_decide as Hraw; [done|]. intros [= ->].
  apply mapM_Some in Hds. split_and!; [|done|].
  - clear Hraw. induction Hds as [|k d keys ds Hd _ IH]; [done|].
    unfold rollup_dimension in Hd.
    destruct (rawDimensionMap_of rawDimension !! k); [|done].
    simpl in Hd. simplify_eq. rewrite fmap_cons. simpl. by f_equal.
  - intros d Hd. apply list_elem_of_lookup in Hd as (i & Hi).
    destruct (Forall2_lookup_r _ _ _ _ _ Hds Hi) as (k & _ & Hk).
    unfold rollup_dimension in Hk.
    destruct (rawDimensionMap_of rawDimension !! k) as [v|] eqn:Hv; [|done].
    simpl in Hk. simplify_eq. by apply rawDimensionMap_of_lookup.
Qed.

Lemma elem_of_ProcessRollup rules (rawDimension : DimensionSet) ds :
  ds ∈ ProcessRollup rules rawDimension
  ↔ ds = rawDimension
    ∨ ∃ rule, rule ∈ rules ∧ derived_set rawDimension rule = Some ds.
Proof.
  rewrite ProcessRollup_spec. unfold rollup_spec.
  rewrite elem_of_cons, list_elem_of_omap. done.
Qed.

(** X8. Rolling up makes no dimension of its own: every dimension of every
    set of the result is one of the raw dimensions, name and value. *)
Theorem ProcessRollup_no_new_dimension (rules : list StringSlice)
    (rawDimension ds : DimensionSet) (d : Dimension) :
  ds ∈ ProcessRollup rules rawDimension → d ∈ ds → d ∈ rawDimension.
Proof.
  intros Hds Hd. apply elem_of_ProcessRollup in Hds as [->|(rule & _ & Hrule)]; [done|].
  apply derived_set_Some in Hrule as (_ & _ & Hin). by apply Hin.
Qed.

Lemma ProcessRollup_no_new_dimension_witness :
  [mkDimension "az" "us-east-1a"]
  ∈ ProcessRollup [Slice ["az"]] (BuildDimensions (telegraf.Tags sample_point))
  ∧ mkDimension "az" "us-east-1a" ∈ BuildDimensions (telegraf.Tags sample_point).
Proof.
  assert ([mkDimension "az" "us-east-1a"]
          ∈ ProcessRollup [Slice ["az"]] (BuildDimensions (telegraf.Tags sample_point)))
    as Hds by (apply (bool_decide_unpack _); vm_compute; exact I).
  split; [exact Hds|].
  apply (ProcessRollup_no_new_dimension _ _ _ _ Hds). left.
Defined.

Lemma ProcessRollup_NoDup_keys rules (rawDimension : DimensionSet) :
  NoDup (elems_of <$> rules) → NoDup (ProcessRollup rules rawDimension).
Proof.
  intros Hnd. rewrite ProcessRollup_spec. unfold rollup_spec. constructor.
  - rewrite list_elem_of_omap. intros (rule & _ & Hrule).
    by apply derived_set_Some in Hrule as (_ & Hne & _).
  - induction rules as [|rule rules IH]; [constructor|].
    rewrite fmap_cons in Hnd. apply NoDup_cons in Hnd as [Hrule Hnd].
    cbn [omap list_omap]. fold (omap (derived_set rawDimension) rules).
    destruct (derived_set rawDimension rule) as [ds|] eqn:Hds; [|by apply IH].
    constructor; [|by apply IH].
    rewrite list_elem_of_omap. intros (rule' & Hin & Hds').
    apply derived_set_Some in Hds as (Hn & _).
    apply derived_set_Some in Hds' as (Hn' & _).
    apply Hrule, list_elem_of_fmap. exists rule'. split; [congruence|done].
Qed.

(** X9. Rules with pairwise distinct key lists give pairwise distinct
    dimension-sets, all distinct from the raw set: no set is emitted twice. *)
Theorem ProcessRollup_distinct_sets (rules : list StringSlice)
    (rawDimension : DimensionSet) :
  NoDup (elems_of <$> rules) → NoDup (ProcessRollup rules rawDimension).
Proof. apply ProcessRollup_NoDup_keys. Qed.

Lemma ProcessRollup_distinct_sets_witness :
  NoDup (elems_of <$> [Slice ["az"]; Slice ["host"; "az"]; Slice []])
  ∧ NoDup (ProcessRollup [Slice ["az"]; Slice ["host"; "az"]; Slice []]
             (BuildDimensions (telegraf.Tags sample_point))).
Proof.
  assert (NoDup (elems_of <$> [Slice ["az"]; Slice ["host"; "az"]; Slice []])) as Hnd
    by (apply (bool_decide_unpack _); vm_compute; exact I).
  split; [exact Hnd|].
  exact (ProcessRollup_distinct_sets _ _ Hnd).
Defined.

(** X10. After the deduplication that [Connect] applies, and when no rule is
    a nil slice, the dimension-sets of the result are pairwise distinct. *)
Theorem ProcessRollup_after_GetUniqueRollupList (inputLists : list StringSlice)
    (rawDimension : DimensionSet) :
  NilSlice ∉ inputLists →
  NoDup (ProcessRollup (GetUniqueRollupList inputLists) rawDimension).
Proof.
  intros Hnil. apply ProcessRollup_NoDup_keys.
  rewrite GetUniqueRollupList_first_seen.
  apply NoDup_fmap_2_strong; [|apply NoDup_first_seen].
  intros r1 r2 Hr1 Hr2 Heq.
  rewrite elem_of_first_seen in Hr1. rewrite elem_of_first_seen in Hr2.
  destruct r1 as [|l1], r2 as [|l2].
  - done.
  - by destruct Hnil.
  - by destruct Hnil.
  - simpl in Heq. by subst.
Qed.

Lemma ProcessRollup_after_GetUniqueRollupList_witness :
  (NilSlice ∉ [Slice ["az"]; Slice []; Slice ["az"]])
  ∧ NoDup (ProcessRollup (GetUniqueRollupList [Slice ["az"]; Slice []; Slice ["az"]])
             (BuildDimensions (telegraf.Tags sample_point))).
Proof.
  assert (NilSlice ∉ [Slice ["az"]; Slice []; Slice ["az"]]) as Hnil
    by (apply (bool_decide_unpack _); vm_compute; exact I).
  split; [exact Hnil|].
  exact (ProcessRollup_after_GetUniqueRollupList _ _ Hnil).
Defined.

(** X11. With the raw dimensions of a tag map and rules in which no key is
    repeated, every dimension-set of the result has at most 10 dimensions,
    with pairwise distinct names. *)
Theorem ProcessRollup_sets_within_limit (rules : list StringSlice)
    (mTags : gmap string string) (ds : DimensionSet) :
  (∀ rule, rule ∈ rules → NoDup (elems_of rule)) →
  ds ∈ ProcessRollup rules (BuildDimensions mTags) →
  (length ds ≤ 10)%nat ∧ NoDup (Dimension_Name <$> ds).
Proof.
  intros Hrules Hds.
  assert (range_keys mTags (map_to_list mTags).*1) as Hv by (unfold range_keys; done).
  pose proof (BuildDimensions_range_NoDup mTags _ Hv) as Hraw.
  assert (length (BuildDimensions mTags) ≤ 10)%nat as Hlen.
  { unfold BuildDimensions. rewrite BuildDimensions_range_take, length_take.
    unfold MaxDimensions. lia. }
  fold (BuildDimensions mTags) in Hraw.
  apply elem_of_ProcessRollup in Hds as [->|(rule & Hrule & Hds)]; [done|].
  apply derived_set_Some in Hds as (Hn & _ & Hin).
  assert (NoDup (Dimension_Name <$> ds)) as Hnd by (rewrite Hn; by apply Hrules).
  split; [|done].
  rewrite <- (length_fmap Dimension_Name ds).
  rewrite <- (length_fmap Dimension_Name (BuildDimensions mTags)) in Hlen.
  etrans; [|exact Hlen].
  apply submseteq_length, NoDup_submseteq; [done|].
  intros n Hnin. apply list_elem_of_fmap in Hnin as (d & -> & Hd).
  by apply list_elem_of_fmap_2, Hin.
Qed.

Lemma ProcessRollup_sets_within_limit_witness :
  (∀ rule, rule ∈ [Slice ["t01"; "t02"]] → NoDup (elems_of rule))
  ∧ [mkDimension "t01" "a"; mkDimension "t02" "b"]
    ∈ ProcessRollup [Slice ["t01"; "t02"]] (BuildDimensions many_tags)
  ∧ (length [mkDimension "t01" "a"; mkDimension "t02" "b"] ≤ 10)%nat.
Proof.
  assert (∀ rule, rule ∈ [Slice ["t01"; "t02"]] → NoDup (elems_of rule)) as Hrules.
  { intros rule Hrule. apply list_elem_of_singleton in Hrule. subst rule.
    apply (bool_decide_unpack _). vm_compute. exact I. }
  assert ([mkDimension "t01" "a"; mkDimension "t02" "b"]
          ∈ ProcessRollup [Slice ["t01"; "t02"]] (BuildDimensions many_tags)) as Hds
    by (apply (bool_decide_unpack _); vm_compute; exact I).
  split; [exact Hrules|]. split; [exact Hds|].
  exact (proj1 (ProcessRollup_sets_within_limit _ _ _ Hrules Hds)).
Defined.

(** ** BuildMetricDatum *)

Section DatumProperties.
Context `{Externals}.

Lemma elem_of_BuildMetricDatum c point visit datum :
  datum ∈ (BuildMetricDatum c point visit).2
  ↔ ∃ k v, (k, v) ∈ visit
           ∧ datum ∈ field_product c (point_after point) (isHighResolution point)
                       (dimensionsList_of c point) k v.
Proof.
  rewrite BuildMetricDatum_product. cbn [snd]. rewrite list_elem_of_bind. split.
  - intros ([k v] & Hd & Hkv). by exists k, v.
  - intros (k & v & Hkv & Hd). by exists (k, v).
Qed.

Lemma elem_of_field_product c point hr dl k v datum :
  datum ∈ field_product c point hr dl k v →
  ∃ dimensions unit,
    dimensions ∈ dl
    ∧ ((∃ value, datum = scalar_datum (decorateMetricName c (telegraf.Name point) k)
                           dimensions (telegraf.Time point) value unit hr)
       ∨ (∃ dist, datum = distribution_datum (decorateMetricName c (telegraf.Name point) k)
                            dimensions (telegraf.Time point) dist unit hr)).
Proof.
  unfold field_product.
  destruct (field_switch c v) as [[[value distList] unit]|];
    [|intros Hd; by apply elem_of_nil in Hd].
  intros Hd. apply list_elem_of_bind in Hd as (dims & Hd & Hdims).
  eexists dims, _. split; [done|].
  destruct distList as [|dist distList].
  - left. apply list_elem_of_singleton in Hd. eauto.
  - right. apply list_elem_of_fmap in Hd as (dist' & -> & _). eauto.
Qed.

Lemma scalar_datum_shape metricName dimensions timestamp value unit hr :
  MetricName (scalar_datum metricName dimensions timestamp value unit hr) = Some metricName
  ∧ Dimensions (scalar_datum metricName dimensions timestamp value unit hr) = dimensions
  ∧ Timestamp (scalar_datum metricName dimensions timestamp value unit hr) = Some timestamp
  ∧ Value (scalar_datum metricName dimensions timestamp value unit hr) = Some value
  ∧ Values (scalar_datum metricName dimensions timestamp value unit hr) = []
  ∧ Counts (scalar_datum metricName dimensions timestamp value unit hr) = []
  ∧ StatisticValues (scalar_datum metricName dimensions timestamp value unit hr) = None
  ∧ StorageResolution (scalar_datum metricName dimensions timestamp value unit hr)
    = (if hr then Some 1 else None).
Proof. unfold scalar_datum. destruct (decide (unit ≠ "")), hr; done. Qed.

Lemma distribution_datum_shape metricName dimensions timestamp dist unit hr :
  MetricName (distribution_datum metricName dimensions timestamp dist unit hr)
  = Some metricName
  ∧ Dimensions (distribution_datum metricName dimensions timestamp dist unit hr)
    = dimensions
  ∧ Timestamp (distribution_datum metricName dimensions timestamp dist unit hr)
    = Some timestamp
  ∧ Value (distribution_datum metricName dimensions timestamp dist unit hr) = None
  ∧ is_Some (StatisticValues
               (distribution_datum metricName dimensions timestamp dist unit hr))
  ∧ StorageResolution (distribution_datum metricName dimensions timestamp dist unit hr)
    = (if hr then Some 1 else None).
Proof.
  unfold distribution_datum. simpl.
  destruct (decide (unit ≠ "")), hr; simpl; split_and!; eauto.
Qed.

Lemma point_after_no_reserved_tag point :
  isHighResolution point = true →
  telegraf.Tags (point_after point) !! highResolutionTagKey = None.
Proof.
  intros Hhr. unfold point_after. rewrite Hhr. simpl. apply lookup_delete_eq.
Qed.

Lemma isHighResolution_point_after point : isHighResolution (point_after point) = false.
Proof.
  destruct (isHighResolution point) eqn:Hhr.
  - unfold isHighResolution at 1. by rewrite point_after_no_reserved_tag.
  - unfold point_after. by rewrite Hhr.
Qed.

End DatumProperties.

(** X12. Every datum built has a metric name, the timestamp of the point and
    one of the point's dimension-sets, and carries either a single value (no
    value list, no statistic set) or a statistic set (no single value), never
    both. *)
Theorem BuildMetricDatum_datum_shape `{Externals} (c : CloudWatch)
    (point : telegraf.Metric) (visit : list (string * FieldValue))
    (datum : MetricDatum) :
  datum ∈ (BuildMetricDatum c point visit).2 →
  (∃ k v, (k, v) ∈ visit
          ∧ MetricName datum = Some (decorateMetricName c (telegraf.Name point) k))
  ∧ Timestamp datum = Some (telegraf.Time point)
  ∧ Dimensions datum ∈ dimensionsList_of c point
  ∧ ((is_Some (Value datum) ∧ Values datum = [] ∧ Counts datum = []
      ∧ StatisticValues datum = None)
     ∨ (Value datum = None ∧ is_Some (StatisticValues datum))).
Proof.
  intros Hd. apply elem_of_BuildMetricDatum in Hd as (k & v & Hkv & Hd).
  apply elem_of_field_product in Hd as (dims & unit & Hdims & Hd).
  rewrite point_after_Name, point_after_Time in Hd.
  destruct Hd as [(value & ->)|(dist & ->)].
  - destruct (scalar_datum_shape (decorateMetricName c (telegraf.Name point) k) dims
                (telegraf.Time point) value unit (isHighResolution point))
      as (Hn & Hdm & Ht & Hv & Hvs & Hcs & Hs & _).
    split_and!; [by exists k, v|done|by rewrite Hdm|].
    left. rewrite Hv. eauto.
  - destruct (distribution_datum_shape (decorateMetricName c (telegraf.Name point) k)
                dims (telegraf.Time point) dist unit (isHighResolution point))
      as (Hn & Hdm & Ht & Hv & Hs & _).
    split_and!; [by exists k, v|done|by rewrite Hdm|].
    by right.
Qed.

Lemma BuildMetricDatum_datum_shape_witness :
  ∃ datum,
    datum ∈ (BuildMetricDatum (H:=linux_externals) sample_config sample_point
               (map_to_list (telegraf.Fields sample_point))).2
    ∧ Timestamp datum = Some (mkTime 1700000000 0).
Proof.
  assert (1 ≤ length (BuildMetricDatum (H:=linux_externals) sample_config sample_point
                        (map_to_list (telegraf.Fields sample_point))).2)%nat as Hlen
    by (vm_compute; lia).
  destruct (BuildMetricDatum (H:=linux_externals) sample_config sample_point
              (map_to_list (telegraf.Fields sample_point))).2
    as [|datum rest] eqn:Hout; [simpl in Hlen; lia|].
  exists datum. split; [left|].
  assert (datum ∈ (BuildMetricDatum (H:=linux_externals) sample_config sample_point
                     (map_to_list (telegraf.Fields sample_point))).2) as Hin
    by (rewrite Hout; left).
  exact (proj1 (proj2 (BuildMetricDatum_datum_shape (H:=linux_externals) _ _ _ _ Hin))).
Defined.

(** X13. The datums of a point all carry the storage resolution 1 when the
    point asks for high resolution, and none carries a storage resolution when
    it does not. *)
Theorem BuildMetricDatum_resolution `{Externals} (c : CloudWatch)
    (point : telegraf.Metric) (visit : list (string * FieldValue))
    (datum : MetricDatum) :
  datum ∈ (BuildMetricDatum c point visit).2 →
  StorageResolution datum = (if isHighResolution point then Some 1 else None).
Proof.
  intros Hd. apply elem_of_BuildMetricDatum in Hd as (k & v & Hkv & Hd).
  apply elem_of_field_product in Hd as (dims & unit & Hdims & Hd).
  destruct Hd as [(value & ->)|(dist & ->)].
  - apply scalar_datum_shape.
  - apply distribution_datum_shape.
Qed.

Lemma BuildMetricDatum_resolution_witness :
  ∃ datum,
    datum ∈ (BuildMetricDatum (H:=linux_externals) sample_config highres_point
               (map_to_list (telegraf.Fields highres_point))).2
    ∧ StorageResolution datum = Some 1.
Proof.
  assert (1 ≤ length (BuildMetricDatum (H:=linux_externals) sample_config highres_point
                        (map_to_list (telegraf.Fields highres_point))).2)%nat as Hlen
    by (vm_compute; lia).
  destruct (BuildMetricDatum (H:=linux_externals) sample_config highres_point
              (map_to_list (telegraf.Fields highres_point))).2
    as [|datum rest] eqn:Hout; [simpl in Hlen; lia|].
  exists datum. split; [left|].
  assert (datum ∈ (BuildMetricDatum (H:=linux_externals) sample_config highres_point
                     (map_to_list (telegraf.Fields highres_point))).2) as Hin
    by (rewrite Hout; left).
  rewrite (BuildMetricDatum_resolution (H:=linux_externals) _ _ _ _ Hin).
  vm_compute. reflexivity.
Defined.

(** X14. When the point asks for high resolution, the reserved tag is not a
    dimension of any datum. *)
Theorem BuildMetricDatum_reserved_tag `{Externals} (c : CloudWatch)
    (point : telegraf.Metric) (visit : list (string * FieldValue))
    (datum : MetricDatum) (d : Dimension) :
  isHighResolution point = true →
  datum ∈ (BuildMetricDatum c point visit).2 →
  d ∈ Dimensions datum →
  Dimension_Name d ≠ highResolutionTagKey.
Proof.
  intros Hhr Hdatum Hd.
  apply elem_of_BuildMetricDatum in Hdatum as (k & v & Hkv & Hdatum).
  apply elem_of_field_product in Hdatum as (dims & unit & Hdims & Hdatum).
  assert (Dimensions datum = dims) as Hdm.
  { destruct Hdatum as [(value & ->)|(dist & ->)];
      [apply scalar_datum_shape|apply distribution_datum_shape]. }
  rewrite Hdm in Hd. unfold dimensionsList_of in Hdims.
  assert (d ∈ BuildDimensions (telegraf.Tags (point_after point))) as Hraw.
  { apply elem_of_ProcessRollup in Hdims as [->|(rule & _ & Hrule)]; [done|].
    apply derived_set_Some in Hrule as (_ & _ & Hin). by apply Hin. }
  apply BuildDimensions_elem in Hraw.
  intros Hname. rewrite Hname, point_after_no_reserved_tag in Hraw by done. done.
Qed.

Lemma BuildMetricDatum_reserved_tag_witness :
  isHighResolution highres_point = true
  ∧ ∃ datum,
      datum ∈ (BuildMetricDatum (H:=linux_externals) sample_config highres_point
                 (map_to_list (telegraf.Fields highres_point))).2
      ∧ ∀ d, d ∈ Dimensions datum → Dimension_Name d ≠ highResolutionTagKey.
Proof.
  assert (isHighResolution highres_point = true) as Hhr by (vm_compute; reflexivity).
  split; [exact Hhr|].
  assert (1 ≤ length (BuildMetricDatum (H:=linux_externals) sample_config highres_point
                        (map_to_list (telegraf.Fields highres_point))).2)%nat as Hlen
    by (vm_compute; lia).
  destruct (BuildMetricDatum (H:=linux_externals) sample_config highres_point
              (map_to_list (telegraf.Fields highres_point))).2
    as [|datum rest] eqn:Hout; [simpl in Hlen; lia|].
  exists datum. split; [left|].
  assert (datum ∈ (BuildMetricDatum (H:=linux_externals) sample_config highres_point
                     (map_to_list (telegraf.Fields highres_point))).2) as Hin
    by (rewrite Hout; left).
  intros d Hd.
  exact (BuildMetricDatum_reserved_tag (H:=linux_externals) _ _ _ _ _ Hhr Hin Hd).
Defined.

(** X15. The request for high resolution is used up by the call: the point
    that [BuildMetricDatum] leaves no longer asks for it, and a second call
    on that point leaves it as it is. *)
Theorem BuildMetricDatum_consumes_request `{Externals} (c c' : CloudWatch)
    (point : telegraf.Metric) (visit visit' : list (string * FieldValue)) :
  isHighResolution (BuildMetricDatum c point visit).1 = false
  ∧ (BuildMetricDatum c' (BuildMetricDatum c point visit).1 visit').1
    = (BuildMetricDatum c point visit).1.
Proof.
  rewrite !BuildMetricDatum_product. cbn [fst].
  split; [apply isHighResolution_point_after|].
  unfold point_after at 1. by rewrite isHighResolution_point_after.
Qed.

(** ** pushMetricDatum *)

Section PushProperties.
Context `{Externals}.

Lemma BuildMetricDatum_same_config c c' point visit :
  same_config c c' → BuildMetricDatum c point visit = BuildMetricDatum c' point visit.
Proof.
  intros (Hr & Hv & Hd). rewrite !BuildMetricDatum_product.
  unfold dimensionsList_of, field_product, field_switch, decorateMetricName,
    decorateMetricUnit.
  by rewrite Hr, Hv, Hd.
Qed.

Lemma append_datum_same_config now c datum : same_config c (append_datum now c datum).
Proof. unfold append_datum, same_config. by destruct (isFull _). Qed.

Lemma append_datums_same_config now datums : ∀ c,
  same_config c (fold_left (append_datum now) datums c).
Proof.
  induction datums as [|d datums IH]; intros c; [done|].
  simpl. destruct (append_datum_same_config now c d) as (H1 & H2 & H3).
  destruct (IH (append_datum now c d)) as (H4 & H5 & H6).
  unfold same_config. split_and!; congruence.
Qed.

Lemma built_datums_same_config events : ∀ c c',
  same_config c c' → built_datums c events = built_datums c' events.
Proof.
  induction events as [|[now ev] events IH]; intros c c' Hc; [done|].
  destruct ev as [point visit| |]; simpl; [|by apply IH|done].
  by rewrite (BuildMetricDatum_same_config c c'), (IH c c').
Qed.

Lemma append_datum_held now c datum :
  held_datums (append_datum now c datum) = held_datums c ++ [datum].
Proof.
  unfold append_datum, held_datums. destruct (isFull _); simpl.
  - by rewrite concat_app, app_nil_r, <- app_assoc, concat_cons, concat_nil, app_nil_r.
  - by rewrite app_assoc.
Qed.

Lemma append_datums_held now datums : ∀ c,
  held_datums (fold_left (append_datum now) datums c) = held_datums c ++ datums.
Proof.
  induction datums as [|d datums IH]; intros c; simpl.
  { by rewrite app_nil_r. }
  by rewrite IH, append_datum_held, <- app_assoc.
Qed.

Lemma pushMetricDatum_held events : ∀ c,
  held_datums (pushMetricDatum events c) = held_datums c ++ built_datums c events.
Proof.
  induction events as [|[now ev] events IH]; intros c.
  { simpl. by rewrite app_nil_r. }
  destruct ev as [point visit| |]; cbn [pushMetricDatum built_datums].
  - rewrite IH, append_datums_held, <- app_assoc. do 2 f_equal.
    symmetry. apply built_datums_same_config, append_datums_same_config.
  - destruct (timeToPublish _ _ _); [|apply IH].
    rewrite IH. f_equal.
    + unfold held_datums. simpl.
      by rewrite concat_app, concat_cons, concat_nil, !app_nil_r.
    + by apply built_datums_same_config.
  - by rewrite app_nil_r.
Qed.

Lemma pushMetricDatum_app events1 events2 c :
  (∀ now, (now, recv_shutdownChan) ∉ events1) →
  pushMetricDatum (events1 ++ events2) c
  = pushMetricDatum events2 (pushMetricDatum events1 c).
Proof.
  revert c. induction events1 as [|[now ev] events1 IH]; intros c Hno; [done|].
  assert (∀ now, (now, recv_shutdownChan) ∉ events1) as Hno'.
  { intros t Ht. apply (Hno t). by right. }
  destruct ev as [point visit| |]; cbn [app pushMetricDatum].
  - by apply IH.
  - destruct (timeToPublish _ _ _); by apply IH.
  - exfalso. apply (Hno now). left.
Qed.

Lemma append_datum_full K M now c datum :
  push_inv K M c →
  (∀ batch, batch ∈ datumBatchChan c → full_batch K M batch) →
  ∀ batch, batch ∈ datumBatchChan (append_datum now c datum) → full_batch K M batch.
Proof.
  intros (HM & HbM & HK & H1 & Hlen & Hsize & _) Hchan batch.
  unfold append_datum. destruct (isFull _) eqn:Hfull; simpl; [|apply Hchan].
  intros Hb. apply elem_of_app in Hb as [Hb|Hb]; [by apply Hchan|].
  apply list_elem_of_singleton in Hb. subst batch.
  unfold isFull in Hfull. simpl in Hfull.
  apply orb_true_iff in Hfull as [Hcount|Hpay].
  - left. apply bool_decide_eq_true in Hcount.
    rewrite length_app in *. simpl in *. lia.
  - right. apply bool_decide_eq_true in Hpay.
    by rewrite batch_size_snoc, <- Hsize.
Qed.

Lemma append_datums_full K M now datums : ∀ c,
  push_inv K M c →
  (∀ batch, batch ∈ datumBatchChan c → full_batch K M batch) →
  ∀ batch, batch ∈ datumBatchChan (fold_left (append_datum now) datums c) →
           full_batch K M batch.
Proof.
  induction datums as [|d datums IH]; intros c Hinv Hchan; [done|].
  simpl. apply IH; [by apply append_datum_inv|by apply append_datum_full].
Qed.

Lemma pushMetricDatum_full K M events : ∀ c,
  (∀ now, (now, recv_ticker) ∉ events) →
  push_inv K M c →
  (∀ batch, batch ∈ datumBatchChan c → full_batch K M batch) →
  ∀ batch, batch ∈ datumBatchChan (pushMetricDatum events c) → full_batch K M batch.
Proof.
  induction events as [|[now ev] events IH]; intros c Hno Hinv Hchan; [done|].
  assert (∀ now, (now, recv_ticker) ∉ events) as Hno'.
  { intros t Ht. apply (Hno t). by right. }
  destruct ev as [point visit| |]; cbn [pushMetricDatum]; [| |done].
  - apply IH; [done|by apply append_datums_inv|by apply append_datums_full].
  - exfalso. apply (Hno now). left.
Qed.

End PushProperties.

(** X16. No datum is lost, repeated or reordered on the way to the channel:
    the datums of the batches sent, followed by those of the batch in
    progress, are the datums held before followed by the datums built from the
    points received, in the order they were received, up to the shutdown. *)
Theorem pushMetricDatum_keeps_datums `{Externals} (events : list (Z * Received))
    (c : CloudWatch) :
  concat (datumBatchChan (pushMetricDatum events c))
  ++ Partition (metricDatumBatch (pushMetricDatum events c))
  = (concat (datumBatchChan c) ++ Partition (metricDatumBatch c))
    ++ built_datums c events.
Proof. apply pushMetricDatum_held. Qed.

(** X17. The loop stops at the shutdown: what is received after it has no
    effect, and the batch in progress is not sent. *)
Theorem pushMetricDatum_shutdown `{Externals} (events rest : list (Z * Received))
    (now : Z) (c : CloudWatch) :
  (∀ t, (t, recv_shutdownChan) ∉ events) →
  pushMetricDatum (events ++ (now, recv_shutdownChan) :: rest) c
  = pushMetricDatum events c.
Proof. intros Hno. by rewrite pushMetricDatum_app. Qed.

Lemma pushMetricDatum_shutdown_witness :
  (∀ t, (t, recv_shutdownChan)
        ∉ [(1, recv_metricChan sample_point (map_to_list (telegraf.Fields sample_point)))])
  ∧ datumBatchChan
      (pushMetricDatum (H:=linux_externals)
         ([(1, recv_metricChan sample_point (map_to_list (telegraf.Fields sample_point)))]
          ++ (2, recv_shutdownChan) :: [(70 * Second, recv_ticker)])
         started_config)
    = [].
Proof.
  assert (∀ t, (t, recv_shutdownChan)
               ∉ [(1, recv_metricChan sample_point
                         (map_to_list (telegraf.Fields sample_point)))]) as Hno.
  { intros t Ht. apply list_elem_of_singleton in Ht. discriminate. }
  split; [exact Hno|].
  rewrite (pushMetricDatum_shutdown (H:=linux_externals) _ _ _ _ Hno).
  vm_compute. reflexivity.
Defined.

(** X18. Without a tick of the timer, only full batches are sent: each batch
    on the channel has [MaxDatumsPerCall] datums or a size estimate at or
    above the payload ceiling. *)
Theorem pushMetricDatum_sends_full `{Externals} (now : Z) (c0 c : CloudWatch)
    (events : list (Z * Received)) (batch : list MetricDatum) :
  startRoutines now c0 = Some c →
  (∀ t, (t, recv_ticker) ∉ events) →
  batch ∈ datumBatchChan (pushMetricDatum events c) →
  Z.of_nat (length batch) = MaxDatumsPerCall c
  ∨ bottomLinePayloadSizeToPublish
    ≤ batch_size (perRequestConstSize (metricDatumBatch c)) batch.
Proof.
  intros Hstart Hno Hbatch.
  assert (datumBatchChan c = []) as Hempty.
  { unfold startRoutines in Hstart.
    destruct (newMetricDatumBatch _ _ _); simpl in Hstart; [|done].
    by injection Hstart as <-. }
  apply startRoutines_inv in Hstart as [Hinv _].
  eapply (pushMetricDatum_full _ _ events c Hno Hinv); [|done].
  intros b Hb. rewrite Hempty in Hb. by apply elem_of_nil in Hb.
Qed.

(** X19. Between two receptions the batch in progress has fewer than
    [MaxDatumsPerCall] datums, its [Size] is the per-request constant plus
    the payloads of its datums, and, when the per-request constant is below
    the payload ceiling, it is not full. *)
Theorem pushMetricDatum_batch_in_progress `{Externals} (now : Z) (c0 c : CloudWatch)
    (events : list (Z * Received)) :
  startRoutines now c0 = Some c →
  Z.of_nat (length (Partition (metricDatumBatch (pushMetricDatum events c))))
  < MaxDatumsPerCall c
  ∧ Size (metricDatumBatch (pushMetricDatum events c))
    = batch_size (perRequestConstSize (metricDatumBatch c))
        (Partition (metricDatumBatch (pushMetricDatum events c)))
  ∧ (perRequestConstSize (metricDatumBatch c) < bottomLinePayloadSizeToPublish →
     isFull (metricDatumBatch (pushMetricDatum events c)) = false).
Proof.
  intros Hstart. apply startRoutines_inv in Hstart as [Hinv _].
  apply (pushMetricDatum_inv _ _ events) in Hinv.
  destruct Hinv as (HM & HbM & HK & H1 & Hlen & Hsize & Hbelow & _).
  split_and!; [done..|].
  intros HKlt. unfold isFull.
  rewrite !bool_decide_eq_false_2; [done|specialize (Hbelow HKlt)|]; lia.
Qed.

Lemma pushMetricDatum_sends_full_witness :
  startRoutines (H:=linux_externals) 0 sample_config = Some started_config
  ∧ (∀ t, (t, recv_ticker) ∉ two_points)
  ∧ Z.of_nat (length (hd [] (datumBatchChan
                               (pushMetricDatum (H:=linux_externals) two_points
                                  started_config)))) = 20.
Proof.
  assert (startRoutines (H:=linux_externals) 0 sample_config = Some started_config)
    as Hstart by (vm_compute; reflexivity).
  assert (∀ t, (t, recv_ticker) ∉ two_points) as Hno.
  { intros t Ht. unfold two_points in Ht.
    apply elem_of_cons in Ht as [Ht|Ht]; [discriminate|].
    apply list_elem_of_singleton in Ht. discriminate. }
  assert (hd [] (datumBatchChan
                   (pushMetricDatum (H:=linux_externals) two_points started_config))
          ∈ datumBatchChan (pushMetricDatum (H:=linux_externals) two_points started_config))
    as Hin by (apply (bool_decide_unpack _); vm_compute; exact I).
  split; [exact Hstart|]. split; [exact Hno|].
  destruct (pushMetricDatum_sends_full (H:=linux_externals) 0 sample_config
              started_config two_points _ Hstart Hno Hin) as [Hfull|Hsize].
  - rewrite Hfull. vm_compute. reflexivity.
  - exfalso. vm_compute in Hsize. apply Hsize. reflexivity.
Defined.

Lemma pushMetricDatum_batch_in_progress_witness :
  startRoutines (H:=linux_externals) 0 sample_config = Some started_config
  ∧ isFull (metricDatumBatch
              (pushMetricDatum (H:=linux_externals) two_ticks started_config))
    = false.
Proof.
  assert (startRoutines (H:=linux_externals) 0 sample_config = Some started_config)
    as Hstart by (vm_compute; reflexivity).
  split; [exact Hstart|].
  apply (pushMetricDatum_batch_in_progress (H:=linux_externals) 0 sample_config
           started_config two_ticks Hstart).
  vm_compute. reflexivity.
Defined.

(** ** backoffSleep and WriteToCloudWatch, for every outcome of the calls *)

Section RetryBounds.
Context `{Externals}.



Lemma backoff_schedule_length r n : length (backoff_schedule r n) = n.
Proof. revert r. induction n as [|n IH]; intros r; simpl; [done|]. by rewrite IH. Qed.



Lemma bump_small r n :
  - 2 ^ 63 ≤ r → r + Z.of_nat n < 2 ^ 63 → bump r n = r + Z.of_nat n.
Proof.
  revert r. induction n as [|n IH]; intros r Hlo Hhi; simpl; [lia|].
  assert (int_wrap (r + 1) = r + 1) as ->.
  { unfold int_wrap. rewrite Z.mod_small; lia. }
  rewrite IH; lia.
Qed.

Lemma backoff_schedule_saturated r n :
  6 ≤ r → r + Z.of_nat n < 2 ^ 63 →
  ∀ d, d ∈ backoff_schedule r n → d = 60 * Second.
Proof.
  revert r. induction n as [|n IH]; intros r Hlo Hhi d Hd; simpl in Hd.
  { by apply elem_of_nil in Hd. }
  apply elem_of_cons in Hd as [->|Hd].
  - unfold sleepDuration_at. by rewrite decide_False by lia.
  - assert (int_wrap (r + 1) = r + 1) as Hw.
    { unfold int_wrap. rewrite Z.mod_small; lia. }
    rewrite Hw in Hd. apply (IH (r + 1)); [lia|lia|done].
Qed.

(** Whatever the calls return, the task ends in one of two ways: a success
    after [n < 5] retried failures, or a failure logged after [m] attempts. *)
Lemma WriteToCloudWatch_cases svc c :
  (∃ n, (n < 5)%nat
        ∧ svc n = None
        ∧ WriteToCloudWatch svc c
          = (set_retries c 0, retry_trace (retries c) n ++ [do_PutMetricData]))
  ∨ (∃ m e, (1 ≤ m ≤ 5)%nat
            ∧ svc (m - 1)%nat = Some e
            ∧ WriteToCloudWatch svc c
              = (set_retries c (bump (retries c) m),
                 retry_trace (retries c) m ++ [do_log_failure e])).
Proof.
  assert (∀ j k, (k + j = 5)%nat →
            (∀ i, (i < k)%nat → ∃ e, svc i = Some e ∧ retried e) →
            (∃ n, (n < 5)%nat
                  ∧ svc n = None
                  ∧ WriteToCloudWatch svc c
                    = (set_retries c 0, retry_trace (retries c) n ++ [do_PutMetricData]))
            ∨ (∃ m e, (1 ≤ m ≤ 5)%nat
                      ∧ svc (m - 1)%nat = Some e
                      ∧ WriteToCloudWatch svc c
                        = (set_retries c (bump (retries c) m),
                           retry_trace (retries c) m ++ [do_log_failure e]))) as Haux.
  { induction j as [|j IH]; intros k Hk Hfail.
    - assert (k = 5%nat) as -> by lia.
      destruct (WriteToCloudWatch_exhausted svc c Hfail) as (e & He & HW).
      right. exists 5%nat, e. split_and!; [lia|lia|done|done].
    - destruct (svc k) as [e|] eqn:Hsvc.
      + destruct (decide (retried e)) as [Hre|Hnot].
        * apply (IH (S k)); [lia|].
          intros i Hi. destruct (decide (i = k)) as [->|Hne]; [eauto|].
          apply Hfail. lia.
        * right. exists (S k), e. split_and!; [lia|lia| |].
          { by replace (S k - 1)%nat with k by lia. }
          apply WriteToCloudWatch_gives_up; [lia|done..].
      + left. exists k. split_and!; [lia|done|].
        apply WriteToCloudWatch_succeeds; [lia|done..]. }
  apply (Haux 5%nat 0%nat); [done|]. intros i Hi. lia.
Qed.

End RetryBounds.


Section RetryAmongProperties.
Context `{Externals}.

Lemma WriteToCloudWatch_among_loop_alone others svc :
  alone others →
  ∀ remaining i c err trace,
    WriteToCloudWatch_among_loop others svc remaining i c err trace
    = WriteToCloudWatch_loop svc remaining i c err trace.
Proof.
  intros Hal. induction remaining as [|remaining IH]; intros i c err trace; [done|].
  cbn [WriteToCloudWatch_among_loop WriteToCloudWatch_loop].
  unfold found. rewrite Hal.
  destruct (svc i) as [[code|]|]; [|by rewrite !backoffSleep_eq, IH|done].
  case_decide; [by rewrite !backoffSleep_eq, IH|done].
Qed.

Lemma WriteToCloudWatch_among_alone others svc c :
  alone others → WriteToCloudWatch_among others svc c = WriteToCloudWatch svc c.
Proof.
  intros Hal. unfold WriteToCloudWatch_among, WriteToCloudWatch.
  by rewrite WriteToCloudWatch_among_loop_alone.
Qed.

Lemma WriteToCloudWatch_among_loop_step others svc remaining i c err trace :
  WriteToCloudWatch_among_loop others svc (S remaining) i c err trace
  = match svc i with
    | None => (set_retries c 0, None, trace ++ [do_PutMetricData])
    | Some e =>
        let r := retries (found others i c) in
        let c' := set_retries (found others i c) (int_wrap (r + 1)) in
        let trace' := (trace ++ [do_PutMetricData]) ++ [do_Sleep (sleepDuration_at r)] in
        if decide (retried e)
        then WriteToCloudWatch_among_loop others svc remaining (S i) c' (Some e) trace'
        else (c', Some e, trace')
    end.
Proof.
  cbn [WriteToCloudWatch_among_loop].
  destruct (svc i) as [[code|]|]; [|done|done].
  simpl. by case_decide.
Qed.

Lemma WriteToCloudWatch_among_loop_saturated others svc :
  (∀ i r, others i = Some r → 6 ≤ r < 2 ^ 63 - 5) →
  ∀ remaining i c err trace d,
    (i + remaining ≤ 5)%nat →
    6 ≤ retries c < 2 ^ 63 - 5 + Z.of_nat i →
    d ∈ sleeps (WriteToCloudWatch_among_loop others svc remaining i c err trace).2 →
    d ∈ sleeps trace ∨ d = 60 * Second.
Proof.
  intros Hothers.
  induction remaining as [|remaining IH]; intros i c err trace d Hi Hr Hd.
  { by left. }
  rewrite WriteToCloudWatch_among_loop_step in Hd.
  destruct (svc i) as [e|].
  2:{ left. cbn [snd] in Hd. rewrite sleeps_app in Hd.
      by rewrite app_nil_r in Hd. }
  assert (6 ≤ retries (found others i c) < 2 ^ 63 - 5 + Z.of_nat i) as Hfound.
  { unfold found. destruct (others i) as [r|] eqn:Hoi; [|done].
    apply Hothers in Hoi. cbn [retries set_retries]. lia. }
  assert (sleepDuration_at (retries (found others i c)) = 60 * Second) as Hsleep.
  { unfold sleepDuration_at. by rewrite decide_False by lia. }
  assert (int_wrap (retries (found others i c) + 1)
          = retries (found others i c) + 1) as Hwrap.
  { unfold int_wrap. rewrite Z.mod_small; lia. }
  cbv zeta in Hd. rewrite Hsleep, Hwrap in Hd.
  assert (∀ t, d ∈ sleeps ((t ++ [do_PutMetricData]) ++ [do_Sleep (60 * Second)]) →
               d ∈ sleeps t ∨ d = 60 * Second) as Hstep.
  { intros t. rewrite !sleeps_app, app_nil_r. intros Hin.
    apply elem_of_app in Hin as [Hin|Hin]; [by left|].
    apply list_elem_of_singleton in Hin. by right. }
  case_decide.
  - apply IH in Hd as [Hd|Hd]; [by apply Hstep|by right|lia|].
    cbn [retries set_retries]. lia.
  - by apply Hstep.
Qed.

End RetryAmongProperties.

(** X21. A task that runs alone, no other worker writing the shared counter
    meanwhile, ends in exactly one of two ways. Either its last call
    succeeds: no failure is logged, the counter is 0, and every call but the
    last was followed by a sleep. Or its last call fails: the failure is
    logged last, every call was followed by a sleep, and the counter has
    grown by the number of calls. *)
Theorem WriteToCloudWatch_outcome `{Externals} (others : nat → option Z)
    (svc : nat → option PutMetricDataError) (c : CloudWatch) :
  alone others →
  - 2 ^ 63 ≤ retries c < 2 ^ 63 - 5 →
  (last (WriteToCloudWatch_among others svc c).2 = Some do_PutMetricData
   ∧ (∀ e, do_log_failure e ∉ (WriteToCloudWatch_among others svc c).2)
   ∧ retries (WriteToCloudWatch_among others svc c).1 = 0
   ∧ S (length (sleeps (WriteToCloudWatch_among others svc c).2))
     = attempts (WriteToCloudWatch_among others svc c).2)
  ∨ ((∃ e, last (WriteToCloudWatch_among others svc c).2 = Some (do_log_failure e))
     ∧ retries (WriteToCloudWatch_among others svc c).1
       = retries c + Z.of_nat (attempts (WriteToCloudWatch_among others svc c).2)
     ∧ length (sleeps (WriteToCloudWatch_among others svc c).2)
       = attempts (WriteToCloudWatch_among others svc c).2).
Proof.
  intros Hal Hr. rewrite (WriteToCloudWatch_among_alone others svc c Hal).
  assert (∀ r n e, do_log_failure e ∉ retry_trace r n) as Hnolog.
  { intros r n e. revert r. induction n as [|n IH]; intros r; simpl.
    - apply not_elem_of_nil.
    - rewrite !not_elem_of_cons. split_and!; [done|done|apply IH]. }
  destruct (WriteToCloudWatch_cases svc c)
    as [(n & Hn & _ & ->)|(m & e & Hm & _ & ->)]; cbn [fst snd].
  - left. rewrite last_snoc, attempts_app, attempts_retry_trace, sleeps_app,
      sleeps_retry_trace, app_nil_r, backoff_schedule_length.
    change (attempts [do_PutMetricData]) with 1%nat.
    split_and!; [done| |done|lia].
    intros e He. apply elem_of_app in He as [He|He]; [by apply Hnolog in He|].
    apply list_elem_of_singleton in He. discriminate.
  - right. rewrite last_snoc, attempts_app, attempts_retry_trace, sleeps_app,
      sleeps_retry_trace, app_nil_r, backoff_schedule_length.
    change (attempts [do_log_failure e]) with 0%nat.
    split_and!; [by exists e| |lia].
    simpl. rewrite bump_small by lia. lia.
Qed.

Lemma WriteToCloudWatch_outcome_witness :
  alone no_others
  ∧ - 2 ^ 63 ≤ retries sample_config < 2 ^ 63 - 5
  ∧ retries (WriteToCloudWatch_among (H:=linux_externals) no_others throttled_twice
               sample_config).1 = 3.
Proof.
  assert (alone no_others) as Hal by (intros i; reflexivity).
  assert (- 2 ^ 63 ≤ retries sample_config < 2 ^ 63 - 5) as Hr
    by (vm_compute; split; [discriminate|reflexivity]).
  split; [exact Hal|]. split; [exact Hr|].
  destruct (WriteToCloudWatch_outcome (H:=linux_externals) no_others throttled_twice
              sample_config Hal Hr) as [(Hlast & _)|(_ & Hret & _)].
  - exfalso. vm_compute in Hlast. discriminate.
  - rewrite Hret. vm_compute. reflexivity.
Defined.


(** X23. When the shared counter is at 6 or more as the task starts, and
    whatever the other workers write to it meanwhile is 6 or more as well (no
    send of theirs succeeds, which would reset it), every sleep of the task
    is the fixed 60 seconds, whatever the calls return. The values stay 5
    below the largest int, so that no increment wraps. *)
Theorem WriteToCloudWatch_saturated `{Externals} (others : nat → option Z)
    (svc : nat → option PutMetricDataError) (c : CloudWatch) (d : Z) :
  6 ≤ retries c < 2 ^ 63 - 5 →
  (∀ i r, others i = Some r → 6 ≤ r < 2 ^ 63 - 5) →
  d ∈ sleeps (WriteToCloudWatch_among others svc c).2 →
  d = 60 * Second.
Proof.
  intros Hr Hothers Hd.
  assert (d ∈ sleeps (WriteToCloudWatch_among_loop others svc
                        (Z.to_nat defaultRetryCount) 0 c None []).2) as Hloop.
  { unfold WriteToCloudWatch_among in Hd.
    destruct (WriteToCloudWatch_among_loop _ _ _ _ _ _ _) as [[c' [e|]] trace];
      cbn [snd] in *; [|done].
    by rewrite sleeps_app, app_nil_r in Hd. }
  apply (WriteToCloudWatch_among_loop_saturated others svc Hothers) in Hloop
    as [Hnil|Hd']; [by apply elem_of_nil in Hnil|done|..].
  - change (Z.to_nat defaultRetryCount) with 5%nat. lia.
  - lia.
Qed.

Lemma WriteToCloudWatch_saturated_witness :
  6 ≤ retries (set_retries sample_config 6) < 2 ^ 63 - 5
  ∧ (∀ i r, another_failure i = Some r → 6 ≤ r < 2 ^ 63 - 5)
  ∧ hd 0 (sleeps (WriteToCloudWatch_among (H:=linux_externals) another_failure
                    throttled_twice (set_retries sample_config 6)).2)
    ∈ sleeps (WriteToCloudWatch_among (H:=linux_externals) another_failure
                throttled_twice (set_retries sample_config 6)).2
  ∧ hd 0 (sleeps (WriteToCloudWatch_among (H:=linux_externals) another_failure
                    throttled_twice (set_retries sample_config 6)).2)
    = 60 * Second.
Proof.
  assert (6 ≤ retries (set_retries sample_config 6) < 2 ^ 63 - 5) as Hr
    by (vm_compute; split; [discriminate|reflexivity]).
  assert (∀ i r, another_failure i = Some r → 6 ≤ r < 2 ^ 63 - 5) as Hothers.
  { intros [|[|i]] r Hi; simpl in Hi; try discriminate.
    injection Hi as <-. lia. }
  assert (hd 0 (sleeps (WriteToCloudWatch_among (H:=linux_externals) another_failure
                          throttled_twice (set_retries sample_config 6)).2)
          ∈ sleeps (WriteToCloudWatch_among (H:=linux_externals) another_failure
                      throttled_twice (set_retries sample_config 6)).2) as Hin
    by (apply (bool_decide_unpack _); vm_compute; exact I).
  split; [exact Hr|]. split; [exact Hothers|]. split; [exact Hin|].
  exact (WriteToCloudWatch_saturated (H:=linux_externals) another_failure
           throttled_twice (set_retries sample_config 6) _ Hr Hothers Hin).
Defined.

(** Without the hypothesis on the other workers it fails: a send of another
    worker that succeeds during the first sleep resets the counter, and the
    task's next sleeps are 200 ms and 400 ms. *)
Example WriteToCloudWatch_among_reset :
  sleeps (WriteToCloudWatch_among (H:=linux_externals) another_success
            throttled_twice (set_retries sample_config 6)).2
  = [60 * Second; 200 * Millisecond; 400 * Millisecond].
Proof. vm_compute. reflexivity. Qed.

(** ** startRoutines *)

(** X24. A negative [MaxDatumsPerCall] makes [startRoutines] fail, in the
    [make] of the first batch. When it succeeds, [MaxDatumsPerCall] is at
    least 1, a [MaxValuesPerDatum] or [ForceFlushInterval] left at 0 has its
    default (150, 60 seconds), the rollup rules, the namespace and the counter
    are untouched, and the first batch is empty, with the per-request constant
    as its size. *)
Theorem startRoutines_defaults `{Externals} (now : Z) (c0 : CloudWatch) :
  (MaxDatumsPerCall c0 < 0 → startRoutines now c0 = None)
  ∧ ∀ c, startRoutines now c0 = Some c →
      1 ≤ MaxDatumsPerCall c
      ∧ (MaxValuesPerDatum c0 = 0 → MaxValuesPerDatum c = 150)
      ∧ (MaxValuesPerDatum c0 ≠ 0 → MaxValuesPerDatum c = MaxValuesPerDatum c0)
      ∧ (ForceFlushInterval c0 = 0 → ForceFlushInterval c = 60 * Second)
      ∧ (ForceFlushInterval c0 ≠ 0 → ForceFlushInterval c = ForceFlushInterval c0)
      ∧ RollupDimensions c = RollupDimensions c0
      ∧ Namespace c = Namespace c0
      ∧ retries c = retries c0
      ∧ datumBatchChan c = []
      ∧ Partition (metricDatumBatch c) = []
      ∧ BeginTime (metricDatumBatch c) = now
      ∧ Size (metricDatumBatch c) = perRequestConstSize (metricDatumBatch c).
Proof.
  split.
  - intros Hneg. unfold startRoutines, newMetricDatumBatch.
    rewrite (decide_False (P := MaxDatumsPerCall c0 = 0)) by lia.
    rewrite (decide_True (P := MaxDatumsPerCall c0 < 0)) by lia. reflexivity.
  - intros c Hstart.
    destruct (startRoutines_inv now c0 c Hstart) as [(_ & _ & _ & H1 & _) _].
    unfold startRoutines, newMetricDatumBatch in Hstart.
    destruct (decide (_ < 0)); [done|]. simpl in Hstart.
    injection Hstart as <-. simpl.
    split_and!; try done.
    + intros ->. done.
    + intros Hne. by rewrite decide_False.
    + intros ->. done.
    + intros Hne. by rewrite decide_False.
Qed.

(** ** Metric names and units *)

Lemma string_app_empty_r (s : string) : (s ++ "")%string = s.
Proof.
  induction s as [|a s IH]; [done|].
  change (String a (s ++ "")%string = String a s). by rewrite IH.
Qed.

Lemma decorateMetricName_plain `{Externals} c category name :
  configured_rename c category name = "" →
  decorateMetricName c category name
  = if decide (name = "value") then category
    else (category ++ (if decide (GOOS = "windows") then " " else "_") ++ name)%string.
Proof.
  unfold configured_rename, decorateMetricName. intros ->.
  rewrite decide_True by done. done.
Qed.

(** X25. Where no rename is configured, two fields of one point have the
    same metric name only if they have the same key. *)
Theorem decorateMetricName_injective `{Externals} (c : CloudWatch)
    (category name1 name2 : string) :
  configured_rename c category name1 = "" →
  configured_rename c category name2 = "" →
  decorateMetricName c category name1 = decorateMetricName c category name2 →
  name1 = name2.
Proof.
  intros H1 H2. rewrite !decorateMetricName_plain by done.
  set (sep := if decide (GOOS = "windows") then " " else "_").
  assert (∀ n, category ≠ (category ++ sep ++ n)%string) as Hne.
  { intros n Heq. rewrite <- (string_app_empty_r category) in Heq at 1.
    apply (inj (String.app category)) in Heq.
    unfold sep in Heq. by case_decide. }
  destruct (decide (name1 = "value")) as [->|Hn1],
           (decide (name2 = "value")) as [->|Hn2]; intros Heq.
  - done.
  - by apply Hne in Heq.
  - symmetry in Heq. by apply Hne in Heq.
  - apply (inj (String.app category)), (inj (String.app sep)) in Heq. done.
Qed.

Lemma decorateMetricName_injective_witness :
  configured_rename sample_config "cpu" "usage_idle" = ""
  ∧ configured_rename sample_config "cpu" "value" = ""
  ∧ decorateMetricName (H:=linux_externals) sample_config "cpu" "usage_idle"
    ≠ decorateMetricName (H:=linux_externals) sample_config "cpu" "value".
Proof.
  assert (configured_rename sample_config "cpu" "usage_idle" = "") as H1
    by reflexivity.
  assert (configured_rename sample_config "cpu" "value" = "") as H2 by reflexivity.
  split; [exact H1|]. split; [exact H2|].
  intros Heq.
  pose proof (decorateMetricName_injective (H:=linux_externals) sample_config
                "cpu" "usage_idle" "value" H1 H2 Heq) as Hn.
  discriminate Hn.
Defined.

Section UnitProperties.
Context `{Externals}.

Lemma scalar_datum_Unit metricName dimensions timestamp value unit hr :
  Unit (scalar_datum metricName dimensions timestamp value unit hr)
  = if decide (unit = "") then None else Some unit.
Proof. unfold scalar_datum. destruct (decide (unit ≠ "")), hr; by case_decide. Qed.

Lemma distribution_datum_Unit metricName dimensions timestamp dist unit hr :
  Unit (distribution_datum metricName dimensions timestamp dist unit hr)
  = if decide (unit = "") then None else Some unit.
Proof.
  unfold distribution_datum. simpl.
  destruct (decide (unit ≠ "")), hr; by case_decide.
Qed.

Lemma field_product_Unit c point hr dl k v datum :
  datum ∈ field_product c point hr dl k v →
  ∃ value distList own,
    field_switch c v = Some (value, distList, own)
    ∧ Unit datum
      = (let unit := if decide (own = "")
                     then decorateMetricUnit c (telegraf.Name point) k else own in
         if decide (unit = "") then None else Some unit).
Proof.
  unfold field_product.
  destruct (field_switch c v) as [[[value distList] own]|];
    [|intros Hd; by apply elem_of_nil in Hd].
  intros Hd. exists value, distList, own. split; [done|].
  apply list_elem_of_bind in Hd as (dims & Hd & _).
  destruct distList as [|dist distList].
  - apply list_elem_of_singleton in Hd. subst datum. apply scalar_datum_Unit.
  - apply list_elem_of_fmap in Hd as (dist' & -> & _). apply distribution_datum_Unit.
Qed.

End UnitProperties.

(** X26. No datum carries an empty unit: the unit is left out when there is
    none. *)
Theorem BuildMetricDatum_unit_not_empty `{Externals} (c : CloudWatch)
    (point : telegraf.Metric) (visit : list (string * FieldValue))
    (datum : MetricDatum) :
  datum ∈ (BuildMetricDatum c point visit).2 → Unit datum ≠ Some "".
Proof.
  intros Hd. apply elem_of_BuildMetricDatum in Hd as (k & v & _ & Hd).
  apply field_product_Unit in Hd as (value & distList & own & _ & ->).
  simpl. repeat case_decide; congruence.
Qed.

Lemma BuildMetricDatum_unit_not_empty_witness :
  ∃ datum,
    datum ∈ (BuildMetricDatum (H:=linux_externals) sample_config sample_point
               (map_to_list (telegraf.Fields sample_point))).2
    ∧ Unit datum ≠ Some "".
Proof.
  assert (1 ≤ length (BuildMetricDatum (H:=linux_externals) sample_config sample_point
                        (map_to_list (telegraf.Fields sample_point))).2)%nat as Hlen
    by (vm_compute; lia).
  destruct (BuildMetricDatum (H:=linux_externals) sample_config sample_point
              (map_to_list (telegraf.Fields sample_point))).2
    as [|datum rest] eqn:Hout; [simpl in Hlen; lia|].
  exists datum. split; [left|].
  assert (datum ∈ (BuildMetricDatum (H:=linux_externals) sample_config sample_point
                     (map_to_list (telegraf.Fields sample_point))).2) as Hin
    by (rewrite Hout; left).
  exact (BuildMetricDatum_unit_not_empty (H:=linux_externals) _ _ _ _ Hin).
Defined.

(** X27. The unit of a distribution, when it has one, is the unit of every
    datum built from it, whatever unit is configured for the field. *)
Theorem BuildMetricDatum_field_distribution_unit `{Externals} (c : CloudWatch)
    (point : telegraf.Metric) (hr : bool) (dl : list DimensionSet) (k : string)
    (t : distribution.Distribution) (datum : MetricDatum) :
  distribution.Unit t ≠ "" →
  datum ∈ BuildMetricDatum_field c point hr dl [] k (V_Distribution t) →
  Unit datum = Some (distribution.Unit t).
Proof.
  intros Hunit Hd. rewrite BuildMetricDatum_field_product, app_nil_l in Hd.
  apply field_product_Unit in Hd as (value & distList & own & Hswitch & ->).
  simpl in Hswitch. case_decide; [done|]. injection Hswitch as _ _ <-.
  simpl. destruct (decide (distribution.Unit t = "")) as [|_]; [done|].
  by rewrite decide_False.
Qed.

Lemma BuildMetricDatum_field_distribution_unit_witness :
  distribution.Unit sample_distribution ≠ ""
  ∧ ∃ datum,
      datum ∈ BuildMetricDatum_field (H:=linux_externals) sample_config sample_point
                false [[mkDimension "host" "h1"]] [] "latency"
                (V_Distribution sample_distribution)
      ∧ Unit datum = Some "Count".
Proof.
  assert (distribution.Unit sample_distribution ≠ "") as Hunit by discriminate.
  split; [exact Hunit|].
  assert (1 ≤ length (BuildMetricDatum_field (H:=linux_externals) sample_config
                        sample_point false [[mkDimension "host" "h1"]] [] "latency"
                        (V_Distribution sample_distribution)))%nat as Hlen
    by (vm_compute; lia).
  destruct (BuildMetricDatum_field (H:=linux_externals) sample_config sample_point
              false [[mkDimension "host" "h1"]] [] "latency"
              (V_Distribution sample_distribution))
    as [|datum rest] eqn:Hout; [simpl in Hlen; lia|].
  exists datum. split; [left|].
  assert (datum ∈ BuildMetricDatum_field (H:=linux_externals) sample_config sample_point
                    false [[mkDimension "host" "h1"]] [] "latency"
                    (V_Distribution sample_distribution)) as Hin
    by (rewrite Hout; left).
  exact (BuildMetricDatum_field_distribution_unit (H:=linux_externals) _ _ _ _ _ _ _
           Hunit Hin).
Defined.
